(** * Neurova: department-agent service and environmental-metrics route

    A shallow embedding of

    - [src/services/department-agent.service.ts] (class
      [DepartmentAgentService]: the agent registry, the task assignment
      engine and agent enrollment), and
    - [src/app/api/districts/[id]/metrics/environmental/route.ts] (the
      [GET] handler),

    followed by the properties the specification states about them.

    JavaScript numbers are IEEE 754 binary64 values; they are modelled by
    Rocq's primitive floats, which are the same format with the same
    rounding (to nearest, ties to even) and the same comparisons (every
    comparison with NaN is false).  The registry is a JavaScript [Map],
    which iterates in insertion order; it is modelled by an association
    list kept in insertion order.  Calls to the collaborators (analytics,
    metrics, embedding provider, vector index, console, event emitter) are
    recorded, in program order, in a trace. *)

From Stdlib Require Import List String ZArith Lia Bool Floats.
Import ListNotations.

Set Warnings "-inexact-float,-register-all".

Local Open Scope string_scope.

(* ================================================================= *)
(** ** JavaScript values, errors and outcomes *)

(** Object literals passed to the collaborators. *)
Inductive Value : Type :=
| VUndefined
| VNum (x : float)
| VStr (s : string)
| VVec (xs : list float)
| VObj (fields : list (string * Value)).

(** A thrown [Error] object. *)
Record JsError : Type := { err_name : string; err_message : string }.

(** The result of a call: a value, or a thrown error (for an [async]
    function: a fulfilled or a rejected promise). *)
Inductive Outcome (A : Type) : Type :=
| Ok (a : A)
| Throw (e : JsError).
Arguments Ok {A} a.
Arguments Throw {A} e.

(* ================================================================= *)
(** ** Data model *)

Inductive Priority : Type := high | medium | low.

Definition Priority_str (p : Priority) : string :=
  match p with high => "high" | medium => "medium" | low => "low" end.

(** [NonNullable<DepartmentAgent["currentTask"]>]: the object literal built
    in [handleCitizenNeed] has the fields [type], [description] and
    [priority]. *)
Record Task : Type := {
  task_type : string;
  task_description : string;
  task_priority : Priority }.

Definition Task_value (t : Task) : Value :=
  VObj [("type", VStr (task_type t));
        ("description", VStr (task_description t));
        ("priority", VStr (Priority_str (task_priority t)))].

(** Modelled from the spec: the declaration of [CitizenNeed]
    ([../types/citizen.types]) is not part of the sources; the spec gives
    "type tag, free-text description, urgency scalar", and the service
    reads exactly [type], [description] and [urgency]. *)
Record CitizenNeed : Type := {
  need_type : string;
  need_description : string;
  need_urgency : float }.

(** Modelled from the spec: the declaration of [Agent] ([../types/agent.types])
    is not part of the sources; [registerAgent] reads [id], [name], [role],
    [personality], [interests] (joined as strings), [traits] (passed to
    [JSON.stringify]) and the optional [department]. *)
Record Agent : Type := {
  agent_id : string;
  name : string;
  role : string;
  personality : string;
  interests : list string;
  traits : Value;
  department : option string }.

(** Modelled from the spec: the declaration of [DepartmentAgent]
    ([../types/department-agent.types]) is not part of the sources.  The
    spec gives an agent ten attributes: "identifier, display name, role,
    personality descriptor, list of interest tags, trait mapping, optional
    department identifier, schedule (availability flag), performance
    record, optional current task".  The first seven are the attributes of
    an [Agent] and are kept together as the agent's [profile]; the service
    reads [id], [schedule.availability], the four scalars of [performance]
    and [currentTask], and writes [currentTask] only. *)
Record Performance : Type := {
  responseTime : float;
  resolutionRate : float;
  efficiency : float;
  citizenSatisfaction : float }.

Record Schedule : Type := { availability : bool }.

Record DepartmentAgent : Type := {
  profile : Agent;
  schedule : Schedule;
  performance : Performance;
  currentTask : option Task }.

(** [agent.id] of a department agent. *)
Definition id (agent : DepartmentAgent) : string := agent_id (profile agent).

(** The write [agent.currentTask = task]: one field is assigned in place
    and every other attribute of the agent stays what it is. *)
Definition set_currentTask (agent : DepartmentAgent) (task : option Task)
  : DepartmentAgent :=
  {| profile := profile agent;
     schedule := schedule agent;
     performance := performance agent;
     currentTask := task |}.

(* ================================================================= *)
(** ** [Map<string, V>]: an association list in insertion order *)

Definition JsMap (V : Type) : Type := list (string * V).

Fixpoint Map_get {V} (m : JsMap V) (k : string) : option V :=
  match m with
  | [] => None
  | (k', v) :: m' => if String.eqb k' k then Some v else Map_get m' k
  end.

Definition Map_has {V} (m : JsMap V) (k : string) : bool :=
  match Map_get m k with Some _ => true | None => false end.

(** [set] keeps the position of a key that is present and appends a new
    key at the end. *)
Fixpoint Map_set {V} (m : JsMap V) (k : string) (v : V) : JsMap V :=
  match m with
  | [] => [(k, v)]
  | (k', v') :: m' =>
      if String.eqb k' k then (k, v) :: m' else (k', v') :: Map_set m' k v
  end.

Definition Map_keys {V} (m : JsMap V) : list string := map fst m.
Definition Map_values {V} (m : JsMap V) : list V := map snd m.

(** [Array.prototype.reduce] without an initial value: the first element
    seeds the accumulator, and an empty array is a [TypeError]. *)
Definition TypeError_reduce : JsError :=
  {| err_name := "TypeError";
     err_message := "Reduce of empty array with no initial value" |}.

Definition Array_reduce {A} (f : A -> A -> A) (l : list A) : Outcome A :=
  match l with
  | [] => Throw TypeError_reduce
  | x :: xs => Ok (fold_left f xs x)
  end.

(* ================================================================= *)
(** ** The world: registry, trace of collaborator calls, clock *)

Inductive Effect : Type :=
| TrackEvent (event : string) (payload : Value)   (* analyticsService.trackEvent *)
| Emit (event : string) (payload : Value)         (* this.emit *)
| UpdateMetrics (update : Value)                  (* metricsService.updateMetrics *)
| CreateEmbedding (text : string)                 (* togetherService.createEmbedding *)
| Upsert (record : Value)                         (* vectorStore.upsert *)
| ConsoleLog (line : string)
| ConsoleError (line : string) (e : JsError).

Record World : Type := {
  agents : JsMap DepartmentAgent;   (* this.agents *)
  trace : list Effect;              (* calls made so far, oldest first *)
  ticks : nat }.                    (* number of Date.now() calls so far *)

(** The collaborators whose answers the service depends on.  The remote
    calls may reject; [Date.now] is a reading of the clock, indexed by the
    number of readings taken before it. *)
Record Services : Type := {
  createEmbedding : string -> Outcome (list float);
  vectorStore_upsert : Value -> Outcome unit;
  updateMetrics : Value -> Outcome unit;
  JSON_stringify : Value -> string;
  Date_now : nat -> float }.

(** State and exception monad: a throw keeps the state reached so far. *)
Definition M (A : Type) : Type := World -> Outcome A * World.

Definition ret {A} (a : A) : M A := fun w => (Ok a, w).

Definition bind {A B} (m : M A) (k : A -> M B) : M B :=
  fun w =>
    match m w with
    | (Ok a, w') => k a w'
    | (Throw e, w') => (Throw e, w')
    end.

Definition throw {A} (e : JsError) : M A := fun w => (Throw e, w).

Definition try_catch {A} (body : M A) (handler : JsError -> M A) : M A :=
  fun w =>
    match body w with
    | (Ok a, w') => (Ok a, w')
    | (Throw e, w') => handler e w'
    end.

Declare Scope js_scope.
Delimit Scope js_scope with js.
Notation "x <- m ;; k" := (bind m (fun x => k))
  (at level 61, m at next level, right associativity) : js_scope.
Notation "m ;; k" := (bind m (fun _ => k))
  (at level 61, right associativity) : js_scope.

Definition lift {A} (r : Outcome A) : M A := fun w => (r, w).

Definition getAgents : M (JsMap DepartmentAgent) := fun w => (Ok (agents w), w).

Definition putAgents (m : JsMap DepartmentAgent) : M unit :=
  fun w => (Ok tt, {| agents := m; trace := trace w; ticks := ticks w |}).

Definition log (e : Effect) : M unit :=
  fun w => (Ok tt, {| agents := agents w; trace := trace w ++ [e]; ticks := ticks w |}).

Definition trackEvent (event : string) (payload : Value) : M unit :=
  log (TrackEvent event payload).

(** [this.emit]: the notification is recorded; what the subscribers do
    with it, a subscriber that throws included, is outside the model. *)
Definition emit (event : string) (payload : Value) : M unit :=
  log (Emit event payload).

Definition forEach {A} (f : A -> M unit) : list A -> M unit :=
  fix go (l : list A) : M unit :=
    match l with
    | [] => ret tt
    | x :: l' => bind (f x) (fun _ => go l')
    end.

(* ================================================================= *)
(** ** Order on binary64 values *)

(** A key whose lexicographic order is the order [SFcompare] computes on
    the values that are not NaN: sign class, then exponent, then
    mantissa (both negated for negative values). *)
Definition SFkey (f : spec_float) : Z * Z * Z :=
  match f with
  | S754_zero _ => (0, 0, 0)
  | S754_nan => (0, 0, 0)
  | S754_infinity false => (2, 0, 0)
  | S754_infinity true => (-2, 0, 0)
  | S754_finite false m e => (1, e, Zpos m)
  | S754_finite true m e => (-1, - e, Zneg m)
  end%Z.

Definition lex3 (a b : Z * Z * Z) : comparison :=
  match a, b with
  | (a1, a2, a3), (b1, b2, b3) =>
      match (a1 ?= b1)%Z with
      | Eq => match (a2 ?= b2)%Z with
              | Eq => (a3 ?= b3)%Z
              | c => c
              end
      | c => c
      end
  end.

Definition klt (a b : Z * Z * Z) : Prop :=
  match a, b with
  | (a1, a2, a3), (b1, b2, b3) =>
      (a1 < b1 \/ (a1 = b1 /\ (a2 < b2 \/ (a2 = b2 /\ a3 < b3))))%Z
  end.

Definition fkey (x : float) : Z * Z * Z := SFkey (Prim2SF x).

(* ================================================================= *)
(** ** [DepartmentAgentService] *)

Section Service.

Variable svc : Services.

Local Open Scope js_scope.

(** [Date.now()]: the next reading of the clock. *)
Definition now : M float :=
  fun w => (Ok (Date_now svc (ticks w)),
            {| agents := agents w; trace := trace w; ticks := S (ticks w) |}).

(** Handler of the department service's ["agentAssigned"] event
    (first listener of [setupEventListeners]). *)
Definition on_agentAssigned (departmentId : string) (agent : DepartmentAgent) : M unit :=
  m <- getAgents ;;
  putAgents (Map_set m (id agent) agent) ;;
  t <- now ;;
  trackEvent "agent_registered"
    (VObj [("agentId", VStr (id agent));
           ("departmentId", VStr departmentId);
           ("timestamp", VNum t)]).

(** Handler of the department service's ["agentsHealthUpdated"] event
    (second listener of [setupEventListeners]); the spec calls it
    [applyHealthUpdate]. *)
Definition on_agentsHealthUpdated (departmentId : string)
    (updated : list DepartmentAgent) : M unit :=
  forEach (fun agent =>
             m <- getAgents ;;
             if Map_has m (id agent)
             then putAgents (Map_set m (id agent) agent)
             else ret tt)
          updated.

(** The score computed twice in the callback of [reduce]. *)
Definition score (a : DepartmentAgent) : float :=
  (responseTime (performance a) * 0.4
   + resolutionRate (performance a) * 0.4
   + efficiency (performance a) * 0.2)%float.

(** The callback of [reduce]: [score > bestScore ? current : best]. *)
Definition better (best current : DepartmentAgent) : DepartmentAgent :=
  if (score best <? score current)%float then current else best.

Definition selectBestAgent (available : list DepartmentAgent) (need : CitizenNeed)
  : M DepartmentAgent :=
  selectedAgent <- lift (Array_reduce better available) ;;
  t <- now ;;
  trackEvent "agent_selected"
    (VObj [("agentId", VStr (id selectedAgent));
           ("needType", VStr (need_type need));
           ("urgency", VNum (need_urgency need));
           ("score", VNum (efficiency (performance selectedAgent)));
           ("timestamp", VNum t)]) ;;
  ret selectedAgent.

(** The registry holds references to agent objects; the model holds the
    records.  The write [agent.currentTask = task] followed by
    [this.agents.set(agentId, agent)] replaces the entry under [agentId]
    by the agent found there with its current task changed.  The object
    [handleCitizenNeed] reads afterwards is read for its [performance]
    only, which this write leaves alone. *)
Definition assignTask (agentId : string) (task : Task) : M unit :=
  m <- getAgents ;;
  match Map_get m agentId with
  | None => ret tt
  | Some agent =>
      let agent' := set_currentTask agent (Some task) in
      putAgents (Map_set m agentId agent') ;;
      t <- now ;;
      trackEvent "task_assigned"
        (VObj [("agentId", VStr agentId);
               ("taskType", VStr (task_type task));
               ("priority", VStr (Priority_str (task_priority task)));
               ("timestamp", VNum t)]) ;;
      emit "taskAssigned"
        (VObj [("agentId", VStr agentId); ("task", Task_value task)])
  end.

(** The filter of [handleCitizenNeed]:
    [agent.schedule.availability && !agent.currentTask]. *)
Definition eligible (agent : DepartmentAgent) : bool :=
  availability (schedule agent)
  && match currentTask agent with Some _ => false | None => true end.

(** The task literal handed to [assignTask]. *)
Definition needTask (need : CitizenNeed) : Task :=
  {| task_type := "citizen_request";
     task_description := need_description need;
     task_priority :=
       if (0.7 <? need_urgency need)%float then high
       else if (0.3 <? need_urgency need)%float then medium
       else low |}.

(** The record handed to [metricsService.updateMetrics]. *)
Definition socialMetrics (agent : DepartmentAgent) : Value :=
  VObj [("social",
         VObj [("healthcareAccessScore", VNum (efficiency (performance agent)));
               ("educationQualityIndex", VNum 0.8%float);
               ("communityWellbeing",
                VNum (citizenSatisfaction (performance agent)))])].

(** [Array.from(this.agents.values()).filter(...)]. *)
Definition availableAgents (m : JsMap DepartmentAgent) : list DepartmentAgent :=
  filter eligible (Map_values m).

Definition handleCitizenNeed (need : CitizenNeed) : M unit :=
  m <- getAgents ;;
  let availableAgents := availableAgents m in
  if Nat.eqb (List.length availableAgents) 0 then
    t <- now ;;
    trackEvent "no_available_agents"
      (VObj [("needType", VStr (need_type need));
             ("urgency", VNum (need_urgency need));
             ("timestamp", VNum t)])
  else
    agent <- selectBestAgent availableAgents need ;;
    assignTask (id agent) (needTask need) ;;
    log (UpdateMetrics (socialMetrics agent)) ;;
    lift (updateMetrics svc (socialMetrics agent)).

(** [agent.department || "general"]: an absent or empty department. *)
Definition department_or_general (agent : Agent) : string :=
  match department agent with
  | None => "general"
  | Some d => if String.eqb d EmptyString then "general" else d
  end.

(** The text sent to the embedding provider. *)
Definition embeddingText (agent : Agent) : string :=
  role agent ++ " " ++ personality agent ++ " "
  ++ String.concat " " (interests agent).

Definition registerAgent (agent : Agent) : M unit :=
  try_catch
    (let text := embeddingText agent in
     log (CreateEmbedding text) ;;
     embedding <- lift (createEmbedding svc text) ;;
     t <- now ;;
     let record :=
       VObj [("id", VStr ("agent-" ++ agent_id agent));
             ("values", VVec embedding);
             ("metadata",
              VObj [("type", VStr "department_agent");
                    ("agentId", VStr (agent_id agent));
                    ("role", VStr (role agent));
                    ("name", VStr (name agent));
                    ("personality", VStr (personality agent));
                    ("interests", VStr (String.concat "," (interests agent)));
                    ("traits", VStr (JSON_stringify svc (traits agent)));
                    ("department", VStr (department_or_general agent));
                    ("timestamp", VNum t)])] in
     log (Upsert record) ;;
     lift (vectorStore_upsert svc record) ;;
     trackEvent "agent_registered"
       (VObj [("agentId", VStr (agent_id agent));
              ("role", VStr (role agent));
              ("department", VStr (department_or_general agent))]) ;;
     log (ConsoleLog ("✅ Registered department agent: " ++ name agent ++ " in "
                      ++ department_or_general agent ++ " department")))
    (fun error =>
       log (ConsoleError ("Failed to register agent " ++ name agent ++ ":") error) ;;
       throw error).

(** What the outside world can ask of the service. *)
Inductive Request : Type :=
| AgentAssigned (departmentId : string) (agent : DepartmentAgent)
| AgentsHealthUpdated (departmentId : string) (updated : list DepartmentAgent)
| CitizenNeedArrives (need : CitizenNeed)
| RegisterAgent (agent : Agent).

Definition serve (r : Request) : M unit :=
  match r with
  | AgentAssigned d a => on_agentAssigned d a
  | AgentsHealthUpdated d l => on_agentsHealthUpdated d l
  | CitizenNeedArrives n => handleCitizenNeed n
  | RegisterAgent a => registerAgent a
  end.

(** The worlds a service instance can be in: it starts with an empty
    registry and is driven by requests. *)
Definition initial : World := {| agents := []; trace := []; ticks := 0 |}.

Inductive reachable : World -> Prop :=
| reachable_initial : reachable initial
| reachable_serve r w : reachable w -> reachable (snd (serve r w)).

End Service.

(** The events of an assignment, as the service builds them. *)
Definition agent_selected (best : DepartmentAgent) (need : CitizenNeed)
    (t : float) : Effect :=
  TrackEvent "agent_selected"
    (VObj [("agentId", VStr (id best));
           ("needType", VStr (need_type need));
           ("urgency", VNum (need_urgency need));
           ("score", VNum (efficiency (performance best)));
           ("timestamp", VNum t)]).

Definition task_assigned (agentId : string) (task : Task) (t : float) : Effect :=
  TrackEvent "task_assigned"
    (VObj [("agentId", VStr agentId);
           ("taskType", VStr (task_type task));
           ("priority", VStr (Priority_str (task_priority task)));
           ("timestamp", VNum t)]).

Definition taskAssigned (agentId : string) (task : Task) : Effect :=
  Emit "taskAssigned"
    (VObj [("agentId", VStr agentId); ("task", Task_value task)]).

(** The registry the loop of [on_agentsHealthUpdated] leaves. *)
Definition healthUpdate (m : JsMap DepartmentAgent)
    (updated : list DepartmentAgent) : JsMap DepartmentAgent :=
  fold_left (fun m agent =>
               if Map_has m (id agent) then Map_set m (id agent) agent else m)
            updated m.

(** The registry invariant: every key appears once, and is the identifier
    of the agent stored under it. *)
Definition wf_registry (m : JsMap DepartmentAgent) : Prop :=
  NoDup (Map_keys m) /\ forall k a, In (k, a) m -> id a = k.

(** An agent with its current task replaced, as [assignTask] leaves it. *)
Definition with_task (a : DepartmentAgent) (t : Task) : DepartmentAgent :=
  set_currentTask a (Some t).

(* ================================================================= *)
(** ** The environmental-metrics route *)

Module Route.

Record Response : Type := { status : Z; body : Value }.

(** [NextResponse.json(body, init)]: a response with the given body and the
    status of [init], 200 when there is none.  [fault] says on which bodies
    the framework fails to build a response, and with which error. *)
Definition NextResponse_json (fault : Value -> option JsError)
    (body : Value) (init : option Z) : Outcome Response :=
  match fault body with
  | Some e => Throw e
  | None => Ok {| status := match init with Some s => s | None => 200%Z end;
                  body := body |}
  end.

Definition data : Value :=
  VObj [("airQuality", VNum 250%float);
        ("noiseLevel", VNum 60%float);
        ("crowdingLevel", VNum 68%float);
        ("greenSpaceUsage", VNum 78%float)].

Definition failure : Value :=
  VObj [("error", VStr "Failed to fetch environmental metrics")].

(** [GET(request, { params })] with [params = { id }]. *)
Definition GET (fault : Value -> option JsError)
    (request : Value) (params_id : string) : Outcome Response :=
  match NextResponse_json fault data None with
  | Ok r => Ok r
  | Throw _ => NextResponse_json fault failure (Some 500%Z)
  end.

End Route.

(* ================================================================= *)
(** ** Sample data *)

Module Sample.

Definition agent (i : string) (available : bool) (rt rr eff sat : float)
    (task : option Task) : DepartmentAgent :=
  {| profile := {| agent_id := i;
                   name := "Officer " ++ i;
                   role := "field officer";
                   personality := "steady";
                   interests := ["streets"; "lighting"];
                   traits := VObj [("patience", VNum 0.75%float)];
                   department := Some "works" |};
     schedule := {| availability := available |};
     performance := {| responseTime := rt; resolutionRate := rr;
                       efficiency := eff; citizenSatisfaction := sat |};
     currentTask := task |}.

Definition patrol : Task :=
  {| task_type := "patrol"; task_description := "night round";
     task_priority := low |}.

Definition alice := agent "alice" true 0.9 0.9 0.9 0.5 None.
Definition bob := agent "bob" true 0.5 0.5 0.5 0.6 None.
Definition carol := agent "carol" true 1 1 0 0.7 (Some patrol).
Definition dave := agent "dave" false 0.2 0.2 0.2 0.1 None.
Definition erin := agent "erin" true 1 1 0 0.4 None.
Definition frank := agent "frank" true 0.5 0.5 0.5 0.9 None.
Definition gail := agent "gail" true nan 0.5 0.5 0.5 None.

(** Two idle agents, the weaker one registered first. *)
Definition world : World :=
  {| agents := [("bob", bob); ("alice", alice); ("carol", carol)];
     trace := []; ticks := 0 |}.

(** An idle agent whose response time is NaN is registered before Alice. *)
Definition nan_world : World :=
  {| agents := [("gail", gail); ("alice", alice)]; trace := []; ticks := 0 |}.

(** Nobody can take a task: one agent is busy, the other is off duty. *)
Definition busy_world : World :=
  {| agents := [("carol", carol); ("dave", dave)]; trace := []; ticks := 0 |}.

Definition pothole : CitizenNeed :=
  {| need_type := "roads"; need_description := "pothole on Main Street";
     need_urgency := 0.5 |}.

Definition streetlight : CitizenNeed :=
  {| need_type := "roads"; need_description := "street light out";
     need_urgency := 0.5 |}.

Definition ann : Agent :=
  {| agent_id := "7"; name := "Ann"; role := "clerk"; personality := "calm";
     interests := ["parks"; "transit"]; traits := VObj [];
     department := None |}.

Definition provider_error : JsError :=
  {| err_name := "Error"; err_message := "embedding provider unavailable" |}.

(** Every collaborator answers. *)
Definition services : Services :=
  {| createEmbedding := fun _ => Ok [0.25; 0.5]%float;
     vectorStore_upsert := fun _ => Ok tt;
     updateMetrics := fun _ => Ok tt;
     JSON_stringify := fun _ => "{}";
     Date_now := fun _ => 1700000000000%float |}.

(** The embedding provider rejects every request. *)
Definition services_down : Services :=
  {| createEmbedding := fun _ => Throw provider_error;
     vectorStore_upsert := fun _ => Ok tt;
     updateMetrics := fun _ => Ok tt;
     JSON_stringify := fun _ => "{}";
     Date_now := fun _ => 1700000000000%float |}.

End Sample.

(* ================================================================= *)
(** ** Task listing, and names for what enrollment builds *)

(** [AgentTaskUpdate].  At run time the [task] field holds whatever
    [agent.currentTask] holds; that it is never null is what the type
    guard of the filter promises. *)
Record AgentTaskUpdate : Type := {
  agentId : string;
  task : option Task }.

(** The filter of [getAgentTasks]:
    [agent.currentTask !== null && agent.currentTask !== undefined]. *)
Definition hasTask (agent : DepartmentAgent) : bool :=
  match currentTask agent with Some _ => true | None => false end.

(** [getAgentTasks(departmentId)].  It asks the department service, not the
    registry; [getDepartmentAgents] is that method of the department
    service, which may reject. *)
Definition getAgentTasks
    (getDepartmentAgents : string -> Outcome (list DepartmentAgent))
    (departmentId : string) : M (list AgentTaskUpdate) :=
  bind (lift (getDepartmentAgents departmentId))
       (fun agents =>
          ret (map (fun agent => {| agentId := id agent;
                                    task := currentTask agent |})
                   (filter hasTask agents))).

(** The record [registerAgent] hands to [vectorStore.upsert], for the
    embedding received and the time read. *)
Definition vectorRecord (svc : Services) (agent : Agent)
    (embedding : list float) (t : float) : Value :=
  VObj [("id", VStr ("agent-" ++ agent_id agent));
        ("values", VVec embedding);
        ("metadata",
         VObj [("type", VStr "department_agent");
               ("agentId", VStr (agent_id agent));
               ("role", VStr (role agent));
               ("name", VStr (name agent));
               ("personality", VStr (personality agent));
               ("interests", VStr (String.concat "," (interests agent)));
               ("traits", VStr (JSON_stringify svc (traits agent)));
               ("department", VStr (department_or_general agent));
               ("timestamp", VNum t)])].

(** The telemetry event of a successful enrollment. *)
Definition enrolled (agent : Agent) : Effect :=
  TrackEvent "agent_registered"
    (VObj [("agentId", VStr (agent_id agent));
           ("role", VStr (role agent));
           ("department", VStr (department_or_general agent))]).

(** The telemetry event of the ["agentAssigned"] handler. *)
Definition agent_registered (agent : DepartmentAgent) (departmentId : string)
    (t : float) : Effect :=
  TrackEvent "agent_registered"
    (VObj [("agentId", VStr (id agent));
           ("departmentId", VStr departmentId);
           ("timestamp", VNum t)]).

(** Priorities in increasing order. *)
Definition Priority_rank (p : Priority) : nat :=
  match p with low => 0 | medium => 1 | high => 2 end.

(** The last agent of an update bearing a given identifier. *)
Definition lastWithId (updated : list DepartmentAgent) (k : string)
  : option DepartmentAgent :=
  find (fun agent => String.eqb (id agent) k) (rev updated).

Module Faulty.

Definition metrics_error : JsError :=
  {| err_name := "Error"; err_message := "metrics service unavailable" |}.

Definition index_error : JsError :=
  {| err_name := "Error"; err_message := "vector index unavailable" |}.

(** The metrics service rejects every update. *)
Definition metrics_down : Services :=
  {| createEmbedding := fun _ => Ok [0.25; 0.5]%float;
     vectorStore_upsert := fun _ => Ok tt;
     updateMetrics := fun _ => Throw metrics_error;
     JSON_stringify := fun _ => "{}";
     Date_now := fun _ => 1700000000000%float |}.

(** The vector index rejects every upsert. *)
Definition index_down : Services :=
  {| createEmbedding := fun _ => Ok [0.25; 0.5]%float;
     vectorStore_upsert := fun _ => Throw index_error;
     updateMetrics := fun _ => Ok tt;
     JSON_stringify := fun _ => "{}";
     Date_now := fun _ => 1700000000000%float |}.

(** A department service that knows one department. *)
Definition roster (departmentId : string) : Outcome (list DepartmentAgent) :=
  if String.eqb departmentId "works"
  then Ok [Sample.bob; Sample.carol; Sample.dave]
  else Throw {| err_name := "Error"; err_message := "unknown department" |}.

(** Alice reports in again, off duty, and Zed is unknown to the registry. *)
Definition refresh : list DepartmentAgent :=
  [Sample.agent "alice" true 0.1 0.1 0.1 0.1 None;
   Sample.agent "zed" true 1 1 1 1 None;
   Sample.agent "alice" false 0.9 0.9 0.9 0.5 None].

End Faulty.

(* ================================================================= *)
(** * Properties *)

(* ================================================================= *)
(** ** The order on binary64 values *)

Section FloatOrder.

Local Open Scope Z_scope.

Lemma lex3_Lt a b : lex3 a b = Lt <-> klt a b.
Proof.
  destruct a as [[a1 a2] a3], b as [[b1 b2] b3]; unfold lex3, klt.
  destruct (Z.compare_spec a1 b1), (Z.compare_spec a2 b2);
    try rewrite Z.compare_lt_iff; split; intros; try discriminate; try reflexivity; lia.
Qed.

Lemma lex3_Gt a b : lex3 a b = Gt <-> klt b a.
Proof.
  destruct a as [[a1 a2] a3], b as [[b1 b2] b3]; unfold lex3, klt.
  destruct (Z.compare_spec a1 b1), (Z.compare_spec a2 b2);
    try rewrite Z.compare_gt_iff; split; intros; try discriminate; try reflexivity; lia.
Qed.

Lemma klt_irrefl a : ~ klt a a.
Proof. destruct a as [[a1 a2] a3]; unfold klt; lia. Qed.

Lemma klt_trans a b c : klt a b -> klt b c -> klt a c.
Proof.
  destruct a as [[a1 a2] a3], b as [[b1 b2] b3], c as [[c1 c2] c3].
  unfold klt; lia.
Qed.

(** Below or equal, then strictly below, is strictly below. *)
Lemma klt_le_lt a b c : ~ klt b a -> klt b c -> klt a c.
Proof.
  destruct a as [[a1 a2] a3], b as [[b1 b2] b3], c as [[c1 c2] c3].
  unfold klt; lia.
Qed.

Lemma SFcompare_key x y :
  x <> S754_nan -> y <> S754_nan ->
  SFcompare x y = Some (lex3 (SFkey x) (SFkey y)).
Proof.
  intros Hx Hy.
  destruct x as [sx|sx| |sx mx ex], y as [sy|sy| |sy my ey];
    try congruence; try destruct sx; try destruct sy; try reflexivity.
  (* both negative: larger exponent, then larger mantissa, is smaller *)
  simpl. rewrite Z.compare_opp, (Z.compare_antisym ex ey).
  destruct (ex ?= ey); reflexivity.
Qed.

End FloatOrder.

Lemma is_nan_Prim2SF x : is_nan x = false <-> Prim2SF x <> S754_nan.
Proof.
  unfold is_nan. rewrite eqb_spec. unfold SFeqb. split.
  - intros H E. rewrite E in H. discriminate.
  - intros H. rewrite (SFcompare_key _ _ H H).
    destruct (lex3 (SFkey (Prim2SF x)) (SFkey (Prim2SF x))) eqn:E; auto.
    + apply lex3_Lt in E. now apply klt_irrefl in E.
    + apply lex3_Gt in E. now apply klt_irrefl in E.
Qed.

(** [x < y] on floats: neither is NaN and the keys are in order. *)
Lemma ltb_klt x y :
  (x <? y)%float = true <->
  is_nan x = false /\ is_nan y = false /\ klt (fkey x) (fkey y).
Proof.
  rewrite ltb_spec, !is_nan_Prim2SF. unfold SFltb, fkey. split.
  - intros H.
    assert (Hx : Prim2SF x <> S754_nan).
    { intros E. rewrite E in H. discriminate. }
    assert (Hy : Prim2SF y <> S754_nan).
    { intros E. rewrite E in H. destruct (Prim2SF x); discriminate. }
    rewrite (SFcompare_key _ _ Hx Hy) in H.
    repeat split; auto. apply lex3_Lt.
    destruct (lex3 _ _); congruence.
  - intros (Hx & Hy & H). rewrite (SFcompare_key _ _ Hx Hy).
    apply lex3_Lt in H. now rewrite H.
Qed.

(** [x <= y] on floats: neither is NaN and [y] is not strictly below. *)
Lemma leb_klt x y :
  (x <=? y)%float = true <->
  is_nan x = false /\ is_nan y = false /\ ~ klt (fkey y) (fkey x).
Proof.
  rewrite leb_spec, !is_nan_Prim2SF. unfold SFleb, fkey. split.
  - intros H.
    assert (Hx : Prim2SF x <> S754_nan).
    { intros E. rewrite E in H. discriminate. }
    assert (Hy : Prim2SF y <> S754_nan).
    { intros E. rewrite E in H. destruct (Prim2SF x); discriminate. }
    rewrite (SFcompare_key _ _ Hx Hy) in H.
    repeat split; auto. intros K. apply lex3_Gt in K.
    rewrite K in H. discriminate.
  - intros (Hx & Hy & H). rewrite (SFcompare_key _ _ Hx Hy).
    destruct (lex3 _ _) eqn:E; auto.
    apply lex3_Gt in E. contradiction.
Qed.

(** On values that are not NaN, [<=] is the negation of the converse [<]. *)
Lemma leb_negb_ltb x y :
  is_nan x = false -> is_nan y = false ->
  (x <=? y)%float = negb (y <? x)%float.
Proof.
  intros Hx Hy.
  destruct (y <? x)%float eqn:L; simpl.
  - apply ltb_klt in L. destruct L as (_ & _ & L).
    destruct (x <=? y)%float eqn:E; auto.
    apply leb_klt in E. tauto.
  - apply leb_klt. repeat split; auto. intros K.
    assert ((y <? x)%float = true) by (apply ltb_klt; auto).
    congruence.
Qed.


Lemma ltb_trans x y z :
  (x <? y)%float = true -> (y <? z)%float = true -> (x <? z)%float = true.
Proof.
  rewrite !ltb_klt. intros (Hx & _ & Hxy) (_ & Hz & Hyz).
  repeat split; auto. eapply klt_trans; eauto.
Qed.

Lemma leb_ltb_trans x y z :
  (x <=? y)%float = true -> (y <? z)%float = true -> (x <? z)%float = true.
Proof.
  rewrite !ltb_klt, leb_klt. intros (Hx & _ & Hxy) (_ & Hz & Hyz).
  repeat split; auto. eapply klt_le_lt; eauto.
Qed.

(* ================================================================= *)
(** ** The registry as a map *)

Section MapFacts.

Context {V : Type}.
Implicit Types (m : JsMap V) (k : string) (v : V).

Lemma Map_get_set_same m k v : Map_get (Map_set m k v) k = Some v.
Proof.
  induction m as [|[k' v'] m IH]; simpl.
  - now rewrite String.eqb_refl.
  - destruct (String.eqb k' k) eqn:E; simpl.
    + now rewrite String.eqb_refl.
    + now rewrite E.
Qed.

Lemma Map_get_set_other m k v k0 :
  k0 <> k -> Map_get (Map_set m k v) k0 = Map_get m k0.
Proof.
  intros N. induction m as [|[k' v'] m IH]; simpl.
  - destruct (String.eqb_spec k k0); congruence.
  - destruct (String.eqb_spec k' k) as [->|]; simpl.
    + destruct (String.eqb_spec k k0); congruence.
    + now rewrite IH.
Qed.

Lemma Map_keys_set m k v :
  Map_has m k = true -> Map_keys (Map_set m k v) = Map_keys m.
Proof.
  unfold Map_has. induction m as [|[k' v'] m IH]; simpl; [discriminate|].
  destruct (String.eqb_spec k' k) as [->|]; simpl; intros H.
  - reflexivity.
  - f_equal. now apply IH.
Qed.

Lemma Map_keys_set_new m k v :
  Map_has m k = false -> Map_keys (Map_set m k v) = (Map_keys m ++ [k])%list.
Proof.
  unfold Map_has. induction m as [|[k' v'] m IH]; simpl; [reflexivity|].
  destruct (String.eqb_spec k' k) as [->|]; simpl; intros H.
  - discriminate.
  - f_equal. now apply IH.
Qed.

Lemma Map_get_In m k v : Map_get m k = Some v -> In (k, v) m.
Proof.
  induction m as [|[k' v'] m IH]; simpl; [discriminate|].
  destruct (String.eqb_spec k' k) as [->|]; intros H.
  - left. congruence.
  - right. auto.
Qed.

Lemma Map_get_None m k : Map_get m k = None -> ~ In k (Map_keys m).
Proof.
  induction m as [|[k' v'] m IH]; simpl; [tauto|].
  destruct (String.eqb_spec k' k) as [->|]; [discriminate|].
  intros H [E|I]; [congruence|]. now apply IH.
Qed.

Lemma In_Map_get m k v : NoDup (Map_keys m) -> In (k, v) m -> Map_get m k = Some v.
Proof.
  induction m as [|[k' v'] m IH]; simpl; [tauto|].
  intros D [E|I].
  - inversion E; subst. now rewrite String.eqb_refl.
  - inversion D as [|? ? N D']; subst.
    destruct (String.eqb_spec k' k) as [->|]; [|auto].
    exfalso. apply N. change (In (fst (k, v)) (map fst m)). now apply in_map.
Qed.

Lemma In_Map_set m k v k0 v0 :
  In (k0, v0) (Map_set m k v) -> (k0 = k /\ v0 = v) \/ In (k0, v0) m.
Proof.
  induction m as [|[k' v'] m IH]; simpl.
  - intros [E|[]]. left. inversion E; auto.
  - destruct (String.eqb_spec k' k) as [->|]; simpl.
    + intros [E|I]; [left; inversion E; auto | right; auto].
    + intros [E|I]; [right; auto|]. destruct (IH I); auto.
Qed.

Lemma NoDup_Map_set m k v : NoDup (Map_keys m) -> NoDup (Map_keys (Map_set m k v)).
Proof.
  intros D. destruct (Map_has m k) eqn:H.
  - now rewrite Map_keys_set.
  - rewrite Map_keys_set_new by assumption.
    apply NoDup_app; [assumption | repeat constructor; simpl; tauto |].
    intros x I [<-|[]]. revert I. apply Map_get_None.
    unfold Map_has in H. destruct (Map_get m k); congruence.
Qed.

End MapFacts.

Lemma wf_registry_set m k a :
  wf_registry m -> id a = k -> wf_registry (Map_set m k a).
Proof.
  intros [D K] E. split.
  - now apply NoDup_Map_set.
  - intros k0 a0 I. apply In_Map_set in I. destruct I as [[-> ->]|I]; auto.
Qed.

(** Under the invariant, an agent listed by [values()] is found again by
    [get] under its identifier. *)
Lemma wf_registry_get m a :
  wf_registry m -> In a (Map_values m) -> Map_get m (id a) = Some a.
Proof.
  intros [D K] I. unfold Map_values in I. apply in_map_iff in I.
  destruct I as [[k a'] [E I]]. simpl in E. subst a'.
  rewrite (K _ _ I). now apply In_Map_get.
Qed.

(* ================================================================= *)
(** ** Selection by [reduce] *)

Lemma better_cases best current :
  ((score best <? score current)%float = true /\ better best current = current)
  \/ ((score best <? score current)%float = false /\ better best current = best).
Proof. unfold better. destruct (score best <? score current)%float; auto. Qed.

Lemma fold_better_In rest : forall a0, In (fold_left better rest a0) (a0 :: rest).
Proof.
  induction rest as [|c rest IH]; intros a0; simpl; [auto|].
  destruct (IH (better a0 c)) as [E|I]; [|auto].
  rewrite <- E.
  destruct (better_cases a0 c) as [[_ B]|[_ B]]; rewrite B; auto.
Qed.

(** The invariant of the reduction: the accumulator splits the agents seen
    so far into those before it, all strictly below it, and those after
    it, none above it. *)
Lemma fold_better_split rest : forall pre best mid,
  (forall a, In a (pre ++ best :: mid ++ rest) -> is_nan (score a) = false) ->
  (forall a, In a pre -> (score a <? score best)%float = true) ->
  (forall a, In a mid -> (score a <=? score best)%float = true) ->
  exists pre' post',
    (pre ++ best :: mid ++ rest = pre' ++ fold_left better rest best :: post')%list
    /\ (forall a, In a pre' ->
          (score a <? score (fold_left better rest best))%float = true)
    /\ (forall a, In a post' ->
          (score a <=? score (fold_left better rest best))%float = true).
Proof.
  induction rest as [|c rest IH]; intros pre best mid Hnan Hpre Hmid.
  - exists pre, mid. rewrite app_nil_r. auto.
  - assert (Nb : is_nan (score best) = false).
    { apply Hnan. apply in_or_app. right. left. reflexivity. }
    assert (Nc : is_nan (score c) = false).
    { apply Hnan. apply in_or_app. right. right.
      apply in_or_app. right. left. reflexivity. }
    simpl fold_left.
    destruct (better_cases best c) as [[L B]|[L B]]; rewrite B.
    + (* the current agent takes over: everything seen so far is below it *)
      destruct (IH (pre ++ best :: mid)%list c []) as (pre' & post' & E & P1 & P2).
      * intros a I. apply Hnan. rewrite <- app_assoc in I. exact I.
      * intros a I. apply in_app_or in I. destruct I as [I|[<-|I]].
        -- eapply ltb_trans; [apply Hpre|]; eauto.
        -- exact L.
        -- eapply leb_ltb_trans; [apply Hmid|]; eauto.
      * intros a [].
      * exists pre', post'. rewrite <- E, <- app_assoc. auto.
    + (* the accumulator stays: the current agent is not above it *)
      destruct (IH pre best (mid ++ [c])%list) as (pre' & post' & E & P1 & P2).
      * intros a I. apply Hnan. rewrite <- app_assoc in I. exact I.
      * exact Hpre.
      * intros a I. apply in_app_or in I. destruct I as [I|[<-|[]]]; [auto|].
        rewrite leb_negb_ltb, L by assumption. reflexivity.
      * exists pre', post'. rewrite <- E, <- app_assoc. auto.
Qed.

(* ================================================================= *)
(** ** What the operations do to the world *)

(** Unfold the primitives of the monad and compute. *)
Ltac run :=
  unfold trackEvent, emit;
  unfold bind, ret, lift, throw, try_catch, getAgents, putAgents, log, now;
  simpl.

Section Runs.

Variable svc : Services.

Lemma selectBestAgent_run a0 rest need w :
  selectBestAgent svc (a0 :: rest) need w =
  (Ok (fold_left better rest a0),
   {| agents := agents w;
      trace := trace w ++ [agent_selected (fold_left better rest a0) need
                             (Date_now svc (ticks w))];
      ticks := S (ticks w) |}).
Proof. reflexivity. Qed.

Lemma assignTask_found agentId task a w :
  Map_get (agents w) agentId = Some a ->
  assignTask svc agentId task w =
  (Ok tt,
   {| agents := Map_set (agents w) agentId (with_task a task);
      trace := trace w ++ [task_assigned agentId task (Date_now svc (ticks w));
                           taskAssigned agentId task];
      ticks := S (ticks w) |}).
Proof.
  intros G. unfold assignTask, bind at 1, getAgents. rewrite G.
  run. now rewrite <- app_assoc.
Qed.

Lemma assignTask_missing agentId task w :
  Map_get (agents w) agentId = None ->
  assignTask svc agentId task w = (Ok tt, w).
Proof.
  intros G. unfold assignTask, bind, getAgents. now rewrite G.
Qed.

(** [handleCitizenNeed] when some agent is available, in terms of the
    lookup [assignTask] makes. *)
Lemma handleCitizenNeed_available need w best :
  Array_reduce better (availableAgents (agents w)) = Ok best ->
  handleCitizenNeed svc need w =
  let sel := agent_selected best need (Date_now svc (ticks w)) in
  let upd := UpdateMetrics (socialMetrics best) in
  (updateMetrics svc (socialMetrics best),
   match Map_get (agents w) (id best) with
   | Some a =>
       {| agents := Map_set (agents w) (id best) (with_task a (needTask need));
          trace := trace w ++ [sel;
                               task_assigned (id best) (needTask need)
                                 (Date_now svc (S (ticks w)));
                               taskAssigned (id best) (needTask need);
                               upd];
          ticks := S (S (ticks w)) |}
   | None =>
       {| agents := agents w;
          trace := trace w ++ [sel; upd];
          ticks := S (ticks w) |}
   end).
Proof.
  intros R. unfold handleCitizenNeed, bind at 1, getAgents.
  destruct (availableAgents (agents w)) as [|a0 rest] eqn:A; [discriminate|].
  simpl in R. injection R as <-.
  change (Nat.eqb (List.length (a0 :: rest)) 0) with false. cbv iota.
  unfold bind at 1. rewrite selectBestAgent_run.
  set (best := fold_left better rest a0).
  unfold bind at 1.
  destruct (Map_get (agents w) (id best)) as [a|] eqn:G.
  - rewrite (assignTask_found _ _ a) by exact G.
    run. rewrite <- !app_assoc. reflexivity.
  - rewrite assignTask_missing by exact G.
    run. rewrite <- !app_assoc. reflexivity.
Qed.

(** The selected agent is one of the registry's agents and is eligible. *)
Lemma selected_available m best :
  Array_reduce better (availableAgents m) = Ok best ->
  In best (Map_values m) /\ eligible best = true.
Proof.
  unfold availableAgents. intros R.
  destruct (filter eligible (Map_values m)) as [|a0 rest] eqn:A; [discriminate|].
  simpl in R. injection R as <-.
  apply filter_In. rewrite A. apply fold_better_In.
Qed.

(** [handleCitizenNeed] on a well-formed registry with an available agent. *)
Lemma handleCitizenNeed_assigns need w best :
  wf_registry (agents w) ->
  Array_reduce better (availableAgents (agents w)) = Ok best ->
  handleCitizenNeed svc need w =
  (updateMetrics svc (socialMetrics best),
   {| agents := Map_set (agents w) (id best) (with_task best (needTask need));
      trace := trace w ++ [agent_selected best need (Date_now svc (ticks w));
                           task_assigned (id best) (needTask need)
                             (Date_now svc (S (ticks w)));
                           taskAssigned (id best) (needTask need);
                           UpdateMetrics (socialMetrics best)];
      ticks := S (S (ticks w)) |}).
Proof.
  intros W R. rewrite (handleCitizenNeed_available _ _ _ R). cbv zeta.
  destruct (selected_available _ _ R) as [I _].
  now rewrite (wf_registry_get _ _ W I).
Qed.

(** [handleCitizenNeed] when no agent is available. *)
Lemma handleCitizenNeed_none need w :
  availableAgents (agents w) = [] ->
  handleCitizenNeed svc need w =
  (Ok tt,
   {| agents := agents w;
      trace := trace w ++ [TrackEvent "no_available_agents"
                             (VObj [("needType", VStr (need_type need));
                                    ("urgency", VNum (need_urgency need));
                                    ("timestamp", VNum (Date_now svc (ticks w)))])];
      ticks := S (ticks w) |}).
Proof.
  intros A. unfold handleCitizenNeed, bind at 1, getAgents. rewrite A.
  reflexivity.
Qed.

End Runs.

(* ================================================================= *)
(** ** Health updates *)

Lemma on_agentsHealthUpdated_run departmentId updated : forall w,
  on_agentsHealthUpdated departmentId updated w =
  (Ok tt, {| agents := healthUpdate (agents w) updated;
             trace := trace w; ticks := ticks w |}).
Proof.
  unfold on_agentsHealthUpdated, healthUpdate.
  induction updated as [|a updated IH]; intros w; simpl.
  - destruct w; reflexivity.
  - unfold bind at 1. unfold bind at 1, getAgents.
    destruct (Map_has (agents w) (id a)); run; now rewrite IH.
Qed.

Lemma healthUpdate_keys updated : forall m,
  Map_keys (healthUpdate m updated) = Map_keys m.
Proof.
  unfold healthUpdate.
  induction updated as [|a updated IH]; intros m; simpl; [reflexivity|].
  rewrite IH. destruct (Map_has m (id a)) eqn:H; [|reflexivity].
  now apply Map_keys_set.
Qed.

Lemma Map_has_keys {V} (m m' : JsMap V) k :
  Map_keys m' = Map_keys m -> Map_has m' k = Map_has m k.
Proof.
  unfold Map_has. revert m'.
  induction m as [|[k1 v1] m IH]; intros [|[k2 v2] m']; simpl;
    try discriminate; [reflexivity|].
  intros E. injection E as -> E.
  destruct (String.eqb k1 k); [reflexivity | now apply IH].
Qed.

Lemma healthUpdate_get updated : forall m k,
  Map_get (healthUpdate m updated) k = Map_get m k
  \/ (Map_has m k = true
      /\ exists a, In a updated /\ id a = k
                   /\ Map_get (healthUpdate m updated) k = Some a).
Proof.
  unfold healthUpdate.
  induction updated as [|a updated IH]; intros m k; simpl; [auto|].
  destruct (Map_has m (id a)) eqn:H.
  - destruct (IH (Map_set m (id a) a) k) as [E|(Hk & a' & I & Ea & G)].
    + destruct (String.eqb_spec k (id a)) as [->|N].
      * right. split; [assumption|]. exists a.
        rewrite E, Map_get_set_same. auto.
      * left. now rewrite E, Map_get_set_other.
    + right. split.
      * rewrite <- Hk. symmetry. apply Map_has_keys. now apply Map_keys_set.
      * exists a'. auto.
  - destruct (IH m k) as [E|(Hk & a' & I & Ea & G)]; [auto|].
    right. split; [assumption|]. exists a'. auto.
Qed.

Lemma healthUpdate_wf updated : forall m,
  wf_registry m -> wf_registry (healthUpdate m updated).
Proof.
  unfold healthUpdate.
  induction updated as [|a updated IH]; intros m W; simpl; [assumption|].
  apply IH. destruct (Map_has m (id a)); [|assumption].
  now apply wf_registry_set.
Qed.

(* ================================================================= *)
(** ** Enrollment *)

Section Enrollment.

Variable svc : Services.

Lemma registerAgent_embedding_fails agent w e :
  createEmbedding svc (embeddingText agent) = Throw e ->
  registerAgent svc agent w =
  (Throw e,
   {| agents := agents w;
      trace := trace w ++ [CreateEmbedding (embeddingText agent);
                           ConsoleError ("Failed to register agent "
                                         ++ name agent ++ ":") e];
      ticks := ticks w |}).
Proof.
  intros F. unfold registerAgent. run. rewrite F. simpl.
  now rewrite <- app_assoc.
Qed.

Lemma registerAgent_agents agent w :
  agents (snd (registerAgent svc agent w)) = agents w.
Proof.
  unfold registerAgent. run.
  destruct (createEmbedding svc (embeddingText agent)); simpl; [|reflexivity].
  destruct (vectorStore_upsert svc _); reflexivity.
Qed.

End Enrollment.

(* ================================================================= *)
(** ** The registry invariant holds in every reachable world *)

Lemma serve_wf svc r w :
  wf_registry (agents w) -> wf_registry (agents (snd (serve svc r w))).
Proof.
  intros W. destruct r as [d a|d l|need|a]; simpl.
  - unfold on_agentAssigned. run. now apply wf_registry_set.
  - rewrite on_agentsHealthUpdated_run. simpl. now apply healthUpdate_wf.
  - destruct (availableAgents (agents w)) as [|a0 rest] eqn:A.
    + now rewrite handleCitizenNeed_none.
    + rewrite (handleCitizenNeed_assigns svc need w (fold_left better rest a0) W)
        by (rewrite A; reflexivity).
      simpl. now apply wf_registry_set.
  - now rewrite registerAgent_agents.
Qed.

Lemma reachable_wf svc w : reachable svc w -> wf_registry (agents w).
Proof.
  induction 1 as [|r w _ IH].
  - split; [constructor | intros k a []].
  - now apply serve_wf.
Qed.

(* ================================================================= *)
(** * The claims of the specification *)

(** C1 (amended).  Let the available agents of the registry be a
    non-empty list that either holds exactly one agent or holds no agent
    whose score [responseTime * 0.4 + resolutionRate * 0.4 +
    efficiency * 0.2] is NaN.  Then [handleCitizenNeed] reports as selected
    the agent [selectBestAgent] returns, and that agent splits the list
    into the agents listed before it, whose scores are all strictly below
    its own, and the agents listed after it, whose scores are all below or
    equal to its own: it has the greatest score, and among the agents with
    that score it is the one listed first.  With exactly one available
    agent the two parts are empty: that agent is selected whatever its
    score, NaN included. *)
Theorem selectBestAgent_maximal svc need w :
  let weighted (a : DepartmentAgent) : float :=
    (responseTime (performance a) * 0.4
     + resolutionRate (performance a) * 0.4
     + efficiency (performance a) * 0.2)%float in
  let available := availableAgents (agents w) in
  available <> [] ->
  ((exists a, available = [a])
   \/ (forall a, In a available -> is_nan (weighted a) = false)) ->
  exists best pre post calls,
    fst (selectBestAgent svc available need w) = Ok best
    /\ Array_reduce better available = Ok best
    /\ trace (snd (handleCitizenNeed svc need w))
       = (trace w ++ agent_selected best need (Date_now svc (ticks w))
                     :: calls)%list
    /\ available = (pre ++ best :: post)%list
    /\ (forall a, In a pre -> (weighted a <? weighted best)%float = true)
    /\ (forall a, In a post -> (weighted a <=? weighted best)%float = true).
Proof.
  intros weighted available N H.
  destruct available as [|a0 rest] eqn:A; [congruence|]. clear N.
  set (best := fold_left better rest a0).
  assert (R : Array_reduce better (availableAgents (agents w)) = Ok best).
  { fold available. rewrite A. reflexivity. }
  assert (C : exists calls,
             trace (snd (handleCitizenNeed svc need w))
             = (trace w ++ agent_selected best need (Date_now svc (ticks w))
                           :: calls)%list).
  { rewrite (handleCitizenNeed_available svc need w best R).
    cbv zeta. simpl snd.
    destruct (Map_get (agents w) (id best)); simpl trace; eexists; reflexivity. }
  destruct C as [calls C].
  assert (S : exists pre post,
             a0 :: rest = (pre ++ best :: post)%list
             /\ (forall a, In a pre -> (score a <? score best)%float = true)
             /\ (forall a, In a post -> (score a <=? score best)%float = true)).
  { destruct H as [[a E]|Hnan].
    - (* a single agent: nothing before it, nothing after it *)
      injection E as -> ->. exists [], []. simpl.
      repeat split; intros x [].
    - destruct (fold_better_split rest [] a0 []) as (pre & post & E & P1 & P2).
      + exact Hnan.
      + intros x [].
      + intros x [].
      + exists pre, post. auto. }
  destruct S as (pre & post & E & P1 & P2).
  exists best, pre, post, calls.
  rewrite selectBestAgent_run. simpl fst.
  split; [reflexivity|]. split; [reflexivity|]. split; [exact C|].
  split; [exact E|]. split; [exact P1 | exact P2].
Qed.

(** The spec's example: of two agents scoring 0.5 and about 0.9, listed in
    that order, the second is selected. *)
Lemma selectBestAgent_maximal_witness :
  let weighted (a : DepartmentAgent) : float :=
    (responseTime (performance a) * 0.4
     + resolutionRate (performance a) * 0.4
     + efficiency (performance a) * 0.2)%float in
  exists best pre post calls,
    fst (selectBestAgent Sample.services [Sample.bob; Sample.alice]
           Sample.pothole Sample.world) = Ok best
    /\ Array_reduce better [Sample.bob; Sample.alice] = Ok best
    /\ trace (snd (handleCitizenNeed Sample.services Sample.pothole Sample.world))
       = (trace Sample.world
          ++ agent_selected best Sample.pothole
               (Date_now Sample.services (ticks Sample.world))
             :: calls)%list
    /\ [Sample.bob; Sample.alice] = (pre ++ best :: post)%list
    /\ (forall a, In a pre -> (weighted a <? weighted best)%float = true)
    /\ (forall a, In a post -> (weighted a <=? weighted best)%float = true).
Proof.
  apply (selectBestAgent_maximal Sample.services Sample.pothole Sample.world).
  - discriminate.
  - right. intros a [<-|[<-|[]]]; reflexivity.
Defined.

(** C1 as stated fails when a score is NaN, since every comparison with
    NaN is false: with Gail, whose score is NaN, registered before Alice,
    both idle and on duty, [handleCitizenNeed] selects Gail and gives her
    the task, although Alice's score, a number above 0.9, is not below or
    equal to Gail's. *)
Lemma selectBestAgent_nan_not_maximal :
  let weighted (a : DepartmentAgent) : float :=
    (responseTime (performance a) * 0.4
     + resolutionRate (performance a) * 0.4
     + efficiency (performance a) * 0.2)%float in
  let w' := snd (handleCitizenNeed Sample.services Sample.pothole
                   Sample.nan_world) in
  availableAgents (agents Sample.nan_world) = [Sample.gail; Sample.alice]
  /\ fst (selectBestAgent Sample.services [Sample.gail; Sample.alice]
            Sample.pothole Sample.nan_world) = Ok Sample.gail
  /\ Map_get (agents w') "gail"
     = Some (with_task Sample.gail (needTask Sample.pothole))
  /\ Map_get (agents w') "alice" = Some Sample.alice
  /\ is_nan (weighted Sample.gail) = true
  /\ (0.9 <? weighted Sample.alice)%float = true
  /\ (weighted Sample.alice <=? weighted Sample.gail)%float = false.
Proof. repeat split. Qed.

(** The examples of the spec, computed: the higher score wins wherever it
    is listed, equal scores go to the agent listed first, and a single
    agent is selected whatever its score. *)
Example selectBestAgent_examples :
  Array_reduce better [Sample.bob; Sample.alice] = Ok Sample.alice
  /\ Array_reduce better [Sample.alice; Sample.bob] = Ok Sample.alice
  /\ (score Sample.bob =? score Sample.frank)%float = true
  /\ Array_reduce better [Sample.bob; Sample.frank] = Ok Sample.bob
  /\ Array_reduce better [Sample.frank; Sample.bob] = Ok Sample.frank
  /\ Array_reduce better [Sample.dave] = Ok Sample.dave.
Proof. repeat split. Qed.

(** Why NaN scores are set aside: a comparison with NaN is false, so an
    agent whose score is NaN, once it is the accumulator, is never
    replaced. *)
Example selectBestAgent_nan :
  is_nan (score Sample.gail) = true
  /\ Array_reduce better [Sample.gail; Sample.alice] = Ok Sample.gail.
Proof. repeat split. Qed.


(** C3.  When no agent of the registry is both available and without a
    current task, [handleCitizenNeed] returns normally, leaves the registry
    as it was, and its only call to a collaborator is the
    "no_available_agents" telemetry event (with the need's type and
    urgency and the time): no task is created, no notification is
    emitted, no metrics are pushed. *)
Theorem handleCitizenNeed_no_available svc need w :
  (forall a, In a (Map_values (agents w)) ->
             ~ (availability (schedule a) = true /\ currentTask a = None)) ->
  handleCitizenNeed svc need w =
  (Ok tt,
   {| agents := agents w;
      trace := trace w ++ [TrackEvent "no_available_agents"
                             (VObj [("needType", VStr (need_type need));
                                    ("urgency", VNum (need_urgency need));
                                    ("timestamp", VNum (Date_now svc (ticks w)))])];
      ticks := S (ticks w) |}).
Proof.
  intros H. apply handleCitizenNeed_none.
  unfold availableAgents.
  destruct (filter eligible (Map_values (agents w))) as [|a l] eqn:F; [reflexivity|].
  assert (I : In a (filter eligible (Map_values (agents w)))) by (rewrite F; left; reflexivity).
  apply filter_In in I. destruct I as [I E]. exfalso. apply (H a I).
  unfold eligible in E. apply andb_true_iff in E. destruct E as [E1 E2].
  split; [assumption|]. destruct (currentTask a); [discriminate | reflexivity].
Qed.

Lemma handleCitizenNeed_no_available_witness :
  handleCitizenNeed Sample.services Sample.pothole Sample.busy_world =
  (Ok tt,
   {| agents := agents Sample.busy_world;
      trace := [TrackEvent "no_available_agents"
                  (VObj [("needType", VStr "roads");
                         ("urgency", VNum 0.5%float);
                         ("timestamp", VNum 1700000000000%float)])];
      ticks := 1 |}).
Proof.
  apply (handleCitizenNeed_no_available Sample.services Sample.pothole
           Sample.busy_world).
  intros a [<-|[<-|[]]] [A T]; discriminate.
Defined.

(** C4 (amended).  When the embedding call fails, [registerAgent] logs the
    failure on the console and re-throws the error the embedding call
    raised, unchanged (it is not wrapped in an error class of the service);
    the registry and the clock are untouched, and the calls made are the
    embedding request and the console message only: no vector-index
    upsert, no telemetry. *)
Theorem registerAgent_embedding_failure svc agent w e :
  createEmbedding svc (embeddingText agent) = Throw e ->
  exists calls,
    registerAgent svc agent w =
    (Throw e,
     {| agents := agents w; trace := trace w ++ calls; ticks := ticks w |})
    /\ calls = [CreateEmbedding (embeddingText agent);
                ConsoleError ("Failed to register agent " ++ name agent ++ ":") e]
    /\ (forall record, ~ In (Upsert record) calls)
    /\ (forall event payload, ~ In (TrackEvent event payload) calls).
Proof.
  intros F. eexists. split; [|split; [reflexivity|]].
  - now apply registerAgent_embedding_fails.
  - split; intros; intros [K|[K|[]]]; discriminate.
Qed.

Lemma registerAgent_embedding_failure_witness :
  exists calls,
    registerAgent Sample.services_down Sample.ann Sample.world =
    (Throw Sample.provider_error,
     {| agents := agents Sample.world;
        trace := trace Sample.world ++ calls;
        ticks := ticks Sample.world |})
    /\ calls = [CreateEmbedding (embeddingText Sample.ann);
                ConsoleError ("Failed to register agent " ++ name Sample.ann ++ ":")
                  Sample.provider_error]
    /\ (forall record, ~ In (Upsert record) calls)
    /\ (forall event payload, ~ In (TrackEvent event payload) calls).
Proof.
  apply (registerAgent_embedding_failure Sample.services_down Sample.ann
           Sample.world Sample.provider_error).
  reflexivity.
Defined.

(** C4 as stated fails: the error that reaches the caller is the provider's
    own error, here an ["Error"], not an ["EnrollmentError"]. *)
Lemma registerAgent_rethrows_provider_error :
  fst (registerAgent Sample.services_down Sample.ann Sample.world)
  = Throw Sample.provider_error
  /\ err_name Sample.provider_error <> "EnrollmentError".
Proof. split; [reflexivity | discriminate]. Qed.

(** C5.  The handler of [agentsHealthUpdated] returns normally and leaves
    the registry with the same identifiers, in the same order; an
    identifier is present afterwards exactly when it was present before;
    and each entry is either what it was or, for an identifier that was
    present, an agent of the update bearing that identifier. *)
Theorem on_agentsHealthUpdated_no_new_ids departmentId updated w :
  let r := on_agentsHealthUpdated departmentId updated w in
  fst r = Ok tt
  /\ Map_keys (agents (snd r)) = Map_keys (agents w)
  /\ (forall k, Map_has (agents (snd r)) k = Map_has (agents w) k)
  /\ (forall k,
        Map_get (agents (snd r)) k = Map_get (agents w) k
        \/ (Map_has (agents w) k = true
            /\ exists a, In a updated /\ id a = k
                         /\ Map_get (agents (snd r)) k = Some a)).
Proof.
  intros r. subst r. rewrite on_agentsHealthUpdated_run. simpl.
  split; [reflexivity|]. split; [apply healthUpdate_keys|]. split.
  - intros k. apply Map_has_keys, healthUpdate_keys.
  - intros k. apply healthUpdate_get.
Qed.

(** C6.  Whatever the request and the district id, [GET] answers 200 with
    the record [{airQuality: 250, noiseLevel: 60, crowdingLevel: 68,
    greenSpaceUsage: 78}] when the framework builds that response, and 500
    with [{error: "Failed to fetch environmental metrics"}] when building
    it throws; the request and the id have no influence on the answer. *)
Theorem GET_environmental fault request params_id :
  (fault Route.data = None ->
   Route.GET fault request params_id =
   Ok {| Route.status := 200;
         Route.body := VObj [("airQuality", VNum 250%float);
                             ("noiseLevel", VNum 60%float);
                             ("crowdingLevel", VNum 68%float);
                             ("greenSpaceUsage", VNum 78%float)] |})
  /\ (forall e, fault Route.data = Some e -> fault Route.failure = None ->
      Route.GET fault request params_id =
      Ok {| Route.status := 500;
            Route.body :=
              VObj [("error", VStr "Failed to fetch environmental metrics")] |})
  /\ Route.GET (fun _ => None) request params_id =
     Ok {| Route.status := 200; Route.body := Route.data |}
  /\ (forall request' params_id',
        Route.GET fault request' params_id' = Route.GET fault request params_id).
Proof.
  unfold Route.GET, Route.NextResponse_json. repeat split.
  - intros F. now rewrite F.
  - intros e F1 F2. now rewrite F1, F2.
Qed.

(** C7.  When some agent is available, the last call [handleCitizenNeed]
    makes is the metrics update, and it is the only metrics update of the
    run: its healthcare-access score is the selected agent's efficiency,
    its community-wellbeing the selected agent's citizen satisfaction, and
    its education-quality index the constant 0.8, whatever the need.  The
    outcome of [handleCitizenNeed] is the outcome of that update. *)
Theorem handleCitizenNeed_metrics svc need w best :
  Array_reduce better (availableAgents (agents w)) = Ok best ->
  let update :=
    VObj [("social",
           VObj [("healthcareAccessScore", VNum (efficiency (performance best)));
                 ("educationQualityIndex", VNum 0.8%float);
                 ("communityWellbeing",
                  VNum (citizenSatisfaction (performance best)))])] in
  exists before,
    trace (snd (handleCitizenNeed svc need w))
    = (trace w ++ before ++ [UpdateMetrics update])%list
    /\ (forall u, ~ In (UpdateMetrics u) before)
    /\ fst (handleCitizenNeed svc need w) = updateMetrics svc update.
Proof.
  intros R update. rewrite (handleCitizenNeed_available svc need w best R).
  cbv zeta. simpl fst. simpl snd.
  destruct (Map_get (agents w) (id best)) as [a|]; simpl trace.
  - exists [agent_selected best need (Date_now svc (ticks w));
            task_assigned (id best) (needTask need) (Date_now svc (S (ticks w)));
            taskAssigned (id best) (needTask need)].
    repeat split. intros u [K|[K|[K|[]]]]; discriminate.
  - exists [agent_selected best need (Date_now svc (ticks w))].
    repeat split. intros u [K|[]]; discriminate.
Qed.

Lemma handleCitizenNeed_metrics_witness :
  exists before,
    trace (snd (handleCitizenNeed Sample.services Sample.pothole Sample.world))
    = (trace Sample.world ++ before
       ++ [UpdateMetrics
             (VObj [("social",
                     VObj [("healthcareAccessScore", VNum 0.9%float);
                           ("educationQualityIndex", VNum 0.8%float);
                           ("communityWellbeing", VNum 0.5%float)])])])%list
    /\ (forall u, ~ In (UpdateMetrics u) before)
    /\ fst (handleCitizenNeed Sample.services Sample.pothole Sample.world)
       = Ok tt.
Proof.
  apply (handleCitizenNeed_metrics Sample.services Sample.pothole Sample.world
           Sample.alice).
  reflexivity.
Defined.

(** C8 (amended).  When some agent of a well-formed registry is available,
    [handleCitizenNeed] stores the created task as the selected agent's
    current task and makes exactly four calls: the "agent_selected"
    telemetry event, a "task_assigned" telemetry event carrying the
    selected agent's identifier, the task's type and priority and the
    time, a "taskAssigned" notification carrying the selected agent's
    identifier and the created task, and the metrics update. *)
Theorem handleCitizenNeed_notifies svc need w best :
  wf_registry (agents w) ->
  Array_reduce better (availableAgents (agents w)) = Ok best ->
  let w' := snd (handleCitizenNeed svc need w) in
  let task := needTask need in
  Map_get (agents w') (id best)
  = Some {| profile := profile best; schedule := schedule best;
            performance := performance best; currentTask := Some task |}
  /\ trace w'
     = (trace w
        ++ [agent_selected best need (Date_now svc (ticks w));
            TrackEvent "task_assigned"
              (VObj [("agentId", VStr (id best));
                     ("taskType", VStr (task_type task));
                     ("priority", VStr (Priority_str (task_priority task)));
                     ("timestamp", VNum (Date_now svc (S (ticks w))))]);
            Emit "taskAssigned"
              (VObj [("agentId", VStr (id best));
                     ("task",
                      VObj [("type", VStr (task_type task));
                            ("description", VStr (task_description task));
                            ("priority",
                             VStr (Priority_str (task_priority task)))])]);
            UpdateMetrics (socialMetrics best)])%list.
Proof.
  intros W R w' task. subst w'.
  rewrite (handleCitizenNeed_assigns svc need w best W R). simpl.
  split; [apply Map_get_set_same | reflexivity].
Qed.

Lemma wf_registry_sample : wf_registry (agents Sample.world).
Proof.
  split.
  - repeat constructor; simpl; intuition discriminate.
  - intros k a [E|[E|[E|[]]]]; injection E as <- <-; reflexivity.
Qed.

Lemma handleCitizenNeed_notifies_witness :
  let w' := snd (handleCitizenNeed Sample.services Sample.pothole Sample.world) in
  Map_get (agents w') "alice"
  = Some (with_task Sample.alice (needTask Sample.pothole))
  /\ trace w'
     = [agent_selected Sample.alice Sample.pothole 1700000000000%float;
        TrackEvent "task_assigned"
          (VObj [("agentId", VStr "alice");
                 ("taskType", VStr "citizen_request");
                 ("priority", VStr "medium");
                 ("timestamp", VNum 1700000000000%float)]);
        Emit "taskAssigned"
          (VObj [("agentId", VStr "alice");
                 ("task",
                  VObj [("type", VStr "citizen_request");
                        ("description", VStr "pothole on Main Street");
                        ("priority", VStr "medium")])]);
        UpdateMetrics (socialMetrics Sample.alice)].
Proof.
  apply (handleCitizenNeed_notifies Sample.services Sample.pothole Sample.world
           Sample.alice).
  - exact wf_registry_sample.
  - reflexivity.
Defined.

(** C8 as stated fails for the telemetry event: two needs that differ in
    their description lead to different tasks for the same agent, yet to
    one and the same "task_assigned" telemetry event, so that event does
    not carry the created task. *)
Lemma task_assigned_telemetry_omits_description :
  let w1 := snd (handleCitizenNeed Sample.services Sample.pothole Sample.world) in
  let w2 := snd (handleCitizenNeed Sample.services Sample.streetlight Sample.world) in
  let event :=
    TrackEvent "task_assigned"
      (VObj [("agentId", VStr "alice");
             ("taskType", VStr "citizen_request");
             ("priority", VStr "medium");
             ("timestamp", VNum 1700000000000%float)]) in
  nth_error (trace w1) 1 = Some event
  /\ nth_error (trace w2) 1 = Some event
  /\ (forall e p, In (TrackEvent e p) (trace w1) -> In (TrackEvent e p) (trace w2))
  /\ Map_get (agents w1) "alice"
     = Some (with_task Sample.alice (needTask Sample.pothole))
  /\ Map_get (agents w2) "alice"
     = Some (with_task Sample.alice (needTask Sample.streetlight))
  /\ needTask Sample.pothole <> needTask Sample.streetlight.
Proof.
  simpl. repeat split; try discriminate.
  intros e p [K|[K|[K|[K|[]]]]]; try discriminate; injection K as <- <-; simpl; auto.
Qed.

(** C9.  When some agent of a well-formed registry is available,
    [handleCitizenNeed] keeps the registry's identifiers and their order
    and leaves the entry of every identifier other than the selected
    agent's as it was.  The selected agent's entry becomes the selected
    agent with its current task set to the created task and nothing else
    changed: identifier, display name, role, personality, interests,
    traits, department, schedule and performance are what they were. *)
Theorem handleCitizenNeed_frame svc need w best :
  wf_registry (agents w) ->
  Array_reduce better (availableAgents (agents w)) = Ok best ->
  let w' := snd (handleCitizenNeed svc need w) in
  Map_keys (agents w') = Map_keys (agents w)
  /\ (forall k, k <> id best -> Map_get (agents w') k = Map_get (agents w) k)
  /\ Map_get (agents w) (id best) = Some best
  /\ Map_get (agents w') (id best)
     = Some {| profile := {| agent_id := id best;
                             name := name (profile best);
                             role := role (profile best);
                             personality := personality (profile best);
                             interests := interests (profile best);
                             traits := traits (profile best);
                             department := department (profile best) |};
               schedule := schedule best;
               performance := performance best;
               currentTask := Some (needTask need) |}
  /\ exists after,
       Map_get (agents w') (id best) = Some after
       /\ id after = id best
       /\ name (profile after) = name (profile best)
       /\ role (profile after) = role (profile best)
       /\ personality (profile after) = personality (profile best)
       /\ interests (profile after) = interests (profile best)
       /\ traits (profile after) = traits (profile best)
       /\ department (profile after) = department (profile best)
       /\ schedule after = schedule best
       /\ performance after = performance best
       /\ currentTask after = Some (needTask need)
       /\ set_currentTask after (currentTask best) = best.
Proof.
  intros W R w'. subst w'.
  rewrite (handleCitizenNeed_assigns svc need w best W R). simpl.
  destruct (selected_available _ _ R) as [I _].
  pose proof (wf_registry_get _ _ W I) as G.
  split; [|split; [|split; [|split]]].
  - apply Map_keys_set. unfold Map_has. now rewrite G.
  - intros k N. now apply Map_get_set_other.
  - exact G.
  - rewrite Map_get_set_same. unfold with_task, set_currentTask, id.
    destruct best as [[i n r p ins tr d] sch perf ct]. reflexivity.
  - exists (with_task best (needTask need)).
    rewrite Map_get_set_same. repeat split.
    destruct best as [pr sch perf ct]. reflexivity.
Qed.

Lemma handleCitizenNeed_frame_witness :
  let w' := snd (handleCitizenNeed Sample.services Sample.pothole Sample.world) in
  Map_keys (agents w') = ["bob"; "alice"; "carol"]
  /\ (forall k, k <> "alice" ->
        Map_get (agents w') k = Map_get (agents Sample.world) k)
  /\ Map_get (agents Sample.world) "alice" = Some Sample.alice
  /\ Map_get (agents w') "alice"
     = Some {| profile := {| agent_id := "alice";
                             name := "Officer alice";
                             role := "field officer";
                             personality := "steady";
                             interests := ["streets"; "lighting"];
                             traits := VObj [("patience", VNum 0.75%float)];
                             department := Some "works" |};
               schedule := {| availability := true |};
               performance := performance Sample.alice;
               currentTask := Some (needTask Sample.pothole) |}
  /\ exists after,
       Map_get (agents w') "alice" = Some after
       /\ id after = "alice"
       /\ name (profile after) = "Officer alice"
       /\ role (profile after) = "field officer"
       /\ personality (profile after) = "steady"
       /\ interests (profile after) = ["streets"; "lighting"]
       /\ traits (profile after) = VObj [("patience", VNum 0.75%float)]
       /\ department (profile after) = Some "works"
       /\ schedule after = schedule Sample.alice
       /\ performance after = performance Sample.alice
       /\ currentTask after = Some (needTask Sample.pothole)
       /\ set_currentTask after (currentTask Sample.alice) = Sample.alice.
Proof.
  apply (handleCitizenNeed_frame Sample.services Sample.pothole Sample.world
           Sample.alice).
  - exact wf_registry_sample.
  - reflexivity.
Defined.

(** C10.  The "agent_selected" telemetry event is the only call
    [selectBestAgent] makes; its [score] field holds the selected agent's
    efficiency, which is not the weighted score the selection compares:
    for an agent with response time 1, resolution rate 1 and efficiency 0,
    selected alone, the field is 0 while the weighted score is above one
    half. *)
Theorem agent_selected_reports_efficiency svc a0 rest need w :
  let best := fold_left better rest a0 in
  selectBestAgent svc (a0 :: rest) need w =
  (Ok best,
   {| agents := agents w;
      trace := trace w
               ++ [TrackEvent "agent_selected"
                     (VObj [("agentId", VStr (id best));
                            ("needType", VStr (need_type need));
                            ("urgency", VNum (need_urgency need));
                            ("score", VNum (efficiency (performance best)));
                            ("timestamp", VNum (Date_now svc (ticks w)))])];
      ticks := S (ticks w) |})
  /\ fold_left better [] Sample.erin = Sample.erin
  /\ efficiency (performance Sample.erin) = 0%float
  /\ (0.5 <? score Sample.erin)%float = true.
Proof. repeat split. Qed.

(* ================================================================= *)
(** * Further properties of the code *)

(* ================================================================= *)
(** ** More on the order of binary64 values *)

Lemma klt_lt_le a b c : klt a b -> ~ klt c b -> klt a c.
Proof.
  destruct a as [[a1 a2] a3], b as [[b1 b2] b3], c as [[c1 c2] c3].
  unfold klt; lia.
Qed.

Lemma ltb_leb_trans x y z :
  (x <? y)%float = true -> (y <=? z)%float = true -> (x <? z)%float = true.
Proof.
  rewrite !ltb_klt, leb_klt. intros (Hx & _ & Hxy) (_ & Hz & Hyz).
  repeat split; auto. eapply klt_lt_le; eauto.
Qed.

Lemma ltb_leb x y : (x <? y)%float = true -> (x <=? y)%float = true.
Proof.
  rewrite ltb_klt, leb_klt. intros (Hx & Hy & H). repeat split; auto.
  intros K. exact (klt_irrefl _ (klt_trans _ _ _ H K)).
Qed.

Lemma leb_refl x : is_nan x = false -> (x <=? x)%float = true.
Proof. intros N. apply leb_klt. repeat split; auto. apply klt_irrefl. Qed.

Lemma leb_antisym_eqb x y :
  (x <=? y)%float = true -> (y <=? x)%float = true -> (x =? y)%float = true.
Proof.
  rewrite !leb_klt. intros (Hx & Hy & H1) (_ & _ & H2).
  apply is_nan_Prim2SF in Hx, Hy.
  rewrite eqb_spec. unfold SFeqb. rewrite (SFcompare_key _ _ Hx Hy).
  destruct (lex3 _ _) eqn:E; auto.
  - apply lex3_Lt in E. contradiction.
  - apply lex3_Gt in E. contradiction.
Qed.

(* ================================================================= *)
(** ** More on the registry as a map *)

Section MapSplit.

Context {V : Type}.
Implicit Types (m : JsMap V) (k : string) (v : V).

(** [set] on a key that is present rewrites its entry where it stands. *)
Lemma Map_set_present m k v :
  Map_has m k = true ->
  exists m1 v0 m2,
    m = (m1 ++ (k, v0) :: m2)%list
    /\ Map_set m k v = (m1 ++ (k, v) :: m2)%list
    /\ Map_get m k = Some v0.
Proof.
  unfold Map_has. induction m as [|[k' v'] m IH]; simpl; [discriminate|].
  destruct (String.eqb_spec k' k) as [->|N]; intros H.
  - exists [], v', m. auto.
  - destruct (IH H) as (m1 & v0 & m2 & E1 & E2 & G).
    exists ((k', v') :: m1), v0, m2. simpl. rewrite <- E1, E2. auto.
Qed.

(** [set] on a new key appends the entry. *)
Lemma Map_set_absent m k v :
  Map_has m k = false -> Map_set m k v = (m ++ [(k, v)])%list.
Proof.
  unfold Map_has. induction m as [|[k' v'] m IH]; simpl; [reflexivity|].
  destruct (String.eqb_spec k' k) as [->|N]; intros H; [discriminate|].
  now rewrite IH.
Qed.

Lemma Map_get_absent m k : ~ In k (Map_keys m) -> Map_get m k = None.
Proof.
  induction m as [|[k' v'] m IH]; simpl; [reflexivity|].
  intros N. destruct (String.eqb_spec k' k) as [->|]; [tauto|].
  apply IH. tauto.
Qed.

(** A map with distinct keys is determined by its keys, in order, and its
    lookups. *)
Lemma Map_ext m : forall m',
  NoDup (Map_keys m) -> Map_keys m' = Map_keys m ->
  (forall k, Map_get m' k = Map_get m k) -> m' = m.
Proof.
  induction m as [|[k v] m IH]; intros [|[k' v'] m'] D K G;
    try discriminate; [reflexivity|].
  simpl in K. injection K as -> K.
  inversion D as [|? ? N D']; subst.
  pose proof (G k) as Gk. simpl in Gk. rewrite String.eqb_refl in Gk.
  injection Gk as ->. f_equal. apply IH; auto.
  intros k0. destruct (String.eqb_spec k k0) as [<-|N0].
  - rewrite !Map_get_absent; auto. now rewrite K.
  - specialize (G k0). simpl in G.
    destruct (String.eqb_spec k k0); [contradiction | assumption].
Qed.

End MapSplit.

Lemma availableAgents_app (m1 m2 : JsMap DepartmentAgent) :
  availableAgents (m1 ++ m2)%list
  = (availableAgents m1 ++ availableAgents m2)%list.
Proof. unfold availableAgents, Map_values. now rewrite map_app, filter_app. Qed.

Lemma availableAgents_cons k a m :
  availableAgents ((k, a) :: m)
  = if eligible a then a :: availableAgents m else availableAgents m.
Proof. reflexivity. Qed.

Lemma eligible_with_task a t : eligible (with_task a t) = false.
Proof. unfold eligible. simpl. apply andb_false_r. Qed.

Lemma availableAgents_In m a :
  In a (availableAgents m) -> exists k, In (k, a) m.
Proof.
  unfold availableAgents, Map_values. intros I.
  apply filter_In in I. destruct I as [I _].
  apply in_map_iff in I. destruct I as [[k a'] [E I]]. simpl in E. subst a'.
  now exists k.
Qed.

(* ================================================================= *)
(** ** The ["agentAssigned"] handler *)

Lemma on_agentAssigned_run svc departmentId agent w :
  on_agentAssigned svc departmentId agent w =
  (Ok tt,
   {| agents := Map_set (agents w) (id agent) agent;
      trace := trace w ++ [agent_registered agent departmentId
                             (Date_now svc (ticks w))];
      ticks := S (ticks w) |}).
Proof. reflexivity. Qed.

(** X1.  The ["agentAssigned"] handler returns normally; afterwards the
    registry answers the agent's identifier with exactly the agent
    received (whatever was stored under it before, current task
    included), every other identifier is answered as before, and the one
    call made is the "agent_registered" telemetry event with the agent's
    identifier, the department's and the time. *)
Theorem on_agentAssigned_registers svc departmentId agent w :
  let r := on_agentAssigned svc departmentId agent w in
  fst r = Ok tt
  /\ Map_get (agents (snd r)) (id agent) = Some agent
  /\ (forall k, k <> id agent ->
        Map_get (agents (snd r)) k = Map_get (agents w) k)
  /\ trace (snd r)
     = (trace w
        ++ [TrackEvent "agent_registered"
              (VObj [("agentId", VStr (id agent));
                     ("departmentId", VStr departmentId);
                     ("timestamp", VNum (Date_now svc (ticks w)))])])%list.
Proof.
  intros r. subst r. rewrite on_agentAssigned_run. simpl.
  split; [reflexivity|]. split; [apply Map_get_set_same|].
  split; [|reflexivity]. intros k N. now apply Map_get_set_other.
Qed.

(* ================================================================= *)
(** ** The ["agentsHealthUpdated"] handler, exactly *)

Lemma find_app {A} (p : A -> bool) (l1 l2 : list A) :
  find p (l1 ++ l2)
  = match find p l1 with Some x => Some x | None => find p l2 end.
Proof.
  induction l1 as [|x l1 IH]; simpl; [reflexivity|].
  destruct (p x); [reflexivity | assumption].
Qed.

Lemma healthUpdate_lookup updated : forall m k,
  Map_get (healthUpdate m updated) k
  = if Map_has m k
    then match lastWithId updated k with
         | Some a => Some a
         | None => Map_get m k
         end
    else None.
Proof.
  unfold healthUpdate, lastWithId.
  induction updated as [|a updated IH]; intros m k; simpl.
  - unfold Map_has. destruct (Map_get m k); reflexivity.
  - rewrite IH, find_app. simpl.
    destruct (Map_has m (id a)) eqn:H.
    + rewrite (Map_has_keys m (Map_set m (id a) a) k)
        by now apply Map_keys_set.
      destruct (Map_has m k) eqn:Hk; [|reflexivity].
      destruct (find _ (rev updated)); [reflexivity|].
      destruct (String.eqb_spec (id a) k) as [<-|N].
      * apply Map_get_set_same.
      * apply Map_get_set_other. congruence.
    + destruct (Map_has m k) eqn:Hk; [|reflexivity].
      destruct (find _ (rev updated)); [reflexivity|].
      destruct (String.eqb_spec (id a) k) as [E|N]; [|reflexivity].
      congruence.
Qed.

(** X2.  The ["agentsHealthUpdated"] handler returns normally, makes no
    call to a collaborator and does not read the clock.  Afterwards an
    identifier that was not registered is still unknown, whatever the
    update holds; a registered identifier is answered with the last agent
    of the update bearing it (whole state replaced, current task
    included), or as before when the update has none. *)
Theorem on_agentsHealthUpdated_last_wins departmentId updated w :
  exists registry,
    on_agentsHealthUpdated departmentId updated w
    = (Ok tt, {| agents := registry; trace := trace w; ticks := ticks w |})
    /\ forall k,
         Map_get registry k
         = if Map_has (agents w) k
           then match find (fun agent => String.eqb (id agent) k) (rev updated) with
                | Some a => Some a
                | None => Map_get (agents w) k
                end
           else None.
Proof.
  exists (healthUpdate (agents w) updated). split.
  - apply on_agentsHealthUpdated_run.
  - intros k. apply healthUpdate_lookup.
Qed.

(** X3.  On a registry with distinct keys, delivering the same health
    update a second time changes nothing: the world after two deliveries
    is the world after one. *)
Theorem on_agentsHealthUpdated_idempotent departmentId updated w :
  NoDup (Map_keys (agents w)) ->
  let once := snd (on_agentsHealthUpdated departmentId updated w) in
  snd (on_agentsHealthUpdated departmentId updated once) = once.
Proof.
  intros D once. subst once. rewrite !on_agentsHealthUpdated_run. simpl.
  f_equal. apply Map_ext.
  - now rewrite healthUpdate_keys.
  - now rewrite !healthUpdate_keys.
  - intros k. rewrite (healthUpdate_lookup updated (healthUpdate _ _)).
    rewrite (Map_has_keys (agents w) (healthUpdate (agents w) updated) k)
      by apply healthUpdate_keys.
    rewrite (healthUpdate_lookup updated (agents w) k).
    destruct (Map_has (agents w) k); [|reflexivity].
    destruct (lastWithId updated k); reflexivity.
Qed.

Lemma on_agentsHealthUpdated_idempotent_witness :
  let once := snd (on_agentsHealthUpdated "works" Faulty.refresh Sample.world) in
  snd (on_agentsHealthUpdated "works" Faulty.refresh once) = once.
Proof.
  apply (on_agentsHealthUpdated_idempotent "works" Faulty.refresh Sample.world).
  exact (proj1 wf_registry_sample).
Defined.

(** The update of the sample: the last of Alice's two reports is kept, Zed
    is ignored, nobody moves. *)
Example on_agentsHealthUpdated_sample :
  agents (snd (on_agentsHealthUpdated "works" Faulty.refresh Sample.world))
  = [("bob", Sample.bob);
     ("alice", Sample.agent "alice" false 0.9 0.9 0.9 0.5 None);
     ("carol", Sample.carol)].
Proof. reflexivity. Qed.

(** X4.  In every world the service can reach from its initial state by
    ["agentAssigned"] and ["agentsHealthUpdated"] events, citizen needs and
    enrollments, the keys of the registry are distinct and each is the
    identifier of the agent stored under it. *)
Theorem registry_invariant svc w :
  reachable svc w ->
  NoDup (Map_keys (agents w))
  /\ forall k a, Map_get (agents w) k = Some a -> id a = k.
Proof.
  intros R. destruct (reachable_wf svc w R) as [D K].
  split; [assumption|]. intros k a G. apply K. now apply Map_get_In.
Qed.

Lemma registry_invariant_witness :
  let w := snd (serve Sample.services (CitizenNeedArrives Sample.pothole)
                  (snd (serve Sample.services
                          (AgentAssigned "works" Sample.alice)
                          (initial)))) in
  NoDup (Map_keys (agents w))
  /\ forall k a, Map_get (agents w) k = Some a -> id a = k.
Proof.
  apply (registry_invariant Sample.services).
  apply reachable_serve. apply reachable_serve. apply reachable_initial.
Defined.

(* ================================================================= *)
(** ** More on [handleCitizenNeed] *)

(** X5.  On a well-formed registry, [handleCitizenNeed] never touches an
    agent that is busy or off duty: whatever the need and whoever is
    selected, the entry of an agent that was not available is afterwards
    what it was, so a task in progress is never overwritten. *)
Theorem handleCitizenNeed_spares_unavailable svc need w k a :
  wf_registry (agents w) ->
  Map_get (agents w) k = Some a ->
  eligible a = false ->
  Map_get (agents (snd (handleCitizenNeed svc need w))) k = Some a.
Proof.
  intros W G E.
  destruct (availableAgents (agents w)) as [|a0 rest] eqn:A.
  - now rewrite handleCitizenNeed_none.
  - set (best := fold_left better rest a0).
    assert (R : Array_reduce better (availableAgents (agents w)) = Ok best)
      by (rewrite A; reflexivity).
    rewrite (handleCitizenNeed_assigns svc need w best W R). simpl.
    destruct (selected_available _ _ R) as [I Eb].
    destruct (String.eqb_spec k (id best)) as [->|N].
    + rewrite (wf_registry_get _ _ W I) in G. congruence.
    + now rewrite Map_get_set_other.
Qed.

Lemma handleCitizenNeed_spares_unavailable_witness :
  Map_get (agents (snd (handleCitizenNeed Sample.services Sample.pothole
                          Sample.world))) "carol"
  = Some Sample.carol.
Proof.
  apply (handleCitizenNeed_spares_unavailable Sample.services Sample.pothole
           Sample.world "carol" Sample.carol).
  - exact wf_registry_sample.
  - reflexivity.
  - reflexivity.
Defined.

(** The available agents once [best], found under its identifier, has
    been given a task. *)
Lemma availableAgents_assigned m best t :
  wf_registry m ->
  Map_get m (id best) = Some best ->
  eligible best = true ->
  exists before after,
    availableAgents m = (before ++ best :: after)%list
    /\ availableAgents (Map_set m (id best) (with_task best t))
       = (before ++ after)%list
    /\ forall a, In a (before ++ after)%list -> id a <> id best.
Proof.
  intros W G Eb.
  destruct (Map_set_present m (id best) (with_task best t))
    as (m1 & v0 & m2 & E1 & E2 & G').
  { unfold Map_has. now rewrite G. }
  assert (v0 = best) by congruence. subst v0.
  rewrite E2. clear E2.
  exists (availableAgents m1), (availableAgents m2).
  split; [|split].
  - now rewrite E1, availableAgents_app, availableAgents_cons, Eb.
  - now rewrite availableAgents_app, availableAgents_cons, eligible_with_task.
  - intros a Ia Eid.
    destruct W as [D K]. rewrite E1 in D, K.
    unfold Map_keys in D. rewrite map_app in D. simpl in D.
    apply NoDup_remove_2 in D. apply D.
    apply in_app_or in Ia. apply in_or_app.
    destruct Ia as [Ia|Ia]; [left|right];
      apply availableAgents_In in Ia; destruct Ia as [k0 Ik];
      (assert (id a = k0) by
         (apply K; apply in_or_app; simpl; tauto));
      subst k0; rewrite <- Eid;
      change (id a) with (fst (id a, a)); now apply in_map.
Qed.

(** X6.  On a well-formed registry, an assignment takes the selected agent,
    and nobody else, out of the available agents: the list of available
    agents afterwards is the list before with the selected agent removed
    from its place, and no agent left in it bears the selected agent's
    identifier, so the next need goes to somebody else. *)
Theorem handleCitizenNeed_consumes_selected svc need w best :
  wf_registry (agents w) ->
  Array_reduce better (availableAgents (agents w)) = Ok best ->
  let w' := snd (handleCitizenNeed svc need w) in
  exists before after,
    availableAgents (agents w) = (before ++ best :: after)%list
    /\ availableAgents (agents w') = (before ++ after)%list
    /\ forall a, In a (availableAgents (agents w')) -> id a <> id best.
Proof.
  intros W R w'. subst w'.
  rewrite (handleCitizenNeed_assigns svc need w best W R). simpl.
  destruct (selected_available _ _ R) as [I Eb].
  destruct (availableAgents_assigned (agents w) best (needTask need) W
              (wf_registry_get _ _ W I) Eb) as (l1 & l2 & E1 & E2 & N).
  exists l1, l2. rewrite E2. auto.
Qed.

Lemma handleCitizenNeed_consumes_selected_witness :
  let w' := snd (handleCitizenNeed Sample.services Sample.pothole Sample.world) in
  exists before after,
    availableAgents (agents Sample.world) = (before ++ Sample.alice :: after)%list
    /\ availableAgents (agents w') = (before ++ after)%list
    /\ forall a, In a (availableAgents (agents w')) -> id a <> id Sample.alice.
Proof.
  apply (handleCitizenNeed_consumes_selected Sample.services Sample.pothole
           Sample.world Sample.alice).
  - exact wf_registry_sample.
  - reflexivity.
Defined.

(** X8.  A rejected metrics update does not undo the assignment: on a
    well-formed registry with an available agent, when the metrics
    service rejects, [handleCitizenNeed] rejects with that error while the
    selected agent holds the task and the "task_assigned" event and the
    "taskAssigned" notification have been sent. *)
Theorem handleCitizenNeed_no_rollback svc need w best e :
  wf_registry (agents w) ->
  Array_reduce better (availableAgents (agents w)) = Ok best ->
  updateMetrics svc (socialMetrics best) = Throw e ->
  let r := handleCitizenNeed svc need w in
  fst r = Throw e
  /\ Map_get (agents (snd r)) (id best) = Some (with_task best (needTask need))
  /\ In (task_assigned (id best) (needTask need) (Date_now svc (S (ticks w))))
        (trace (snd r))
  /\ In (taskAssigned (id best) (needTask need)) (trace (snd r)).
Proof.
  intros W R F r. subst r.
  rewrite (handleCitizenNeed_assigns svc need w best W R). simpl.
  split; [assumption|]. split; [apply Map_get_set_same|].
  split; apply in_or_app; right; simpl; auto.
Qed.

Lemma handleCitizenNeed_no_rollback_witness :
  let r := handleCitizenNeed Faulty.metrics_down Sample.pothole Sample.world in
  fst r = Throw Faulty.metrics_error
  /\ Map_get (agents (snd r)) "alice"
     = Some (with_task Sample.alice (needTask Sample.pothole))
  /\ In (task_assigned "alice" (needTask Sample.pothole) 1700000000000%float)
        (trace (snd r))
  /\ In (taskAssigned "alice" (needTask Sample.pothole)) (trace (snd r)).
Proof.
  apply (handleCitizenNeed_no_rollback Faulty.metrics_down Sample.pothole
           Sample.world Sample.alice Faulty.metrics_error).
  - exact wf_registry_sample.
  - reflexivity.
  - reflexivity.
Defined.

(** The available agents after an ["agentAssigned"] event on a registry
    where nobody was available. *)
Lemma availableAgents_set_none m k a :
  availableAgents m = [] ->
  availableAgents (Map_set m k a) = if eligible a then [a] else [].
Proof.
  intros A. destruct (Map_has m k) eqn:H.
  - destruct (Map_set_present m k a H) as (m1 & v0 & m2 & E1 & E2 & _).
    rewrite E1, availableAgents_app, availableAgents_cons in A.
    apply app_eq_nil in A. destruct A as [A1 A2].
    rewrite E2, availableAgents_app, availableAgents_cons, A1.
    destruct (eligible v0); [discriminate|]. rewrite A2.
    destruct (eligible a); reflexivity.
  - rewrite (Map_set_absent m k a H), availableAgents_app, A.
    rewrite availableAgents_cons. reflexivity.
Qed.

(** X9.  When nobody in a well-formed registry is available, an agent
    that reports in through ["agentAssigned"], on duty and without a
    task, receives the next need: after the event and the need, the
    registry holds that agent with the task built from the need. *)
Theorem agentAssigned_then_need svc departmentId agent need w :
  wf_registry (agents w) ->
  availableAgents (agents w) = [] ->
  eligible agent = true ->
  let w1 := snd (on_agentAssigned svc departmentId agent w) in
  let w2 := snd (handleCitizenNeed svc need w1) in
  Map_get (agents w2) (id agent) = Some (with_task agent (needTask need))
  /\ availableAgents (agents w2) = [].
Proof.
  intros W A E w1 w2. subst w2 w1. rewrite on_agentAssigned_run. simpl snd.
  set (w1 := {| agents := Map_set (agents w) (id agent) agent;
                trace := _; ticks := _ |}).
  assert (W1 : wf_registry (agents w1)) by now apply wf_registry_set.
  assert (A1 : availableAgents (agents w1) = [agent]).
  { simpl. rewrite availableAgents_set_none by assumption. now rewrite E. }
  assert (R : Array_reduce better (availableAgents (agents w1)) = Ok agent)
    by now rewrite A1.
  split.
  - rewrite (handleCitizenNeed_assigns svc need w1 agent W1 R). simpl.
    apply Map_get_set_same.
  - rewrite (handleCitizenNeed_assigns svc need w1 agent W1 R). simpl agents.
    destruct (availableAgents_assigned (agents w1) agent (needTask need) W1)
      as (l1 & l2 & E1 & E2 & _).
    { apply Map_get_set_same. }
    { assumption. }
    simpl agents in E1, E2. rewrite E2. simpl in A1. rewrite A1 in E1.
    destruct l1 as [|x l1]; simpl in E1.
    + injection E1 as <-. reflexivity.
    + injection E1 as _ E1. destruct l1; discriminate.
Qed.

Lemma agentAssigned_then_need_witness :
  let w1 := snd (on_agentAssigned Sample.services "works" Sample.erin
                   Sample.busy_world) in
  let w2 := snd (handleCitizenNeed Sample.services Sample.pothole w1) in
  Map_get (agents w2) "erin"
  = Some (with_task Sample.erin (needTask Sample.pothole))
  /\ availableAgents (agents w2) = [].
Proof.
  apply (agentAssigned_then_need Sample.services "works" Sample.erin
           Sample.pothole Sample.busy_world).
  - split.
    + repeat constructor; simpl; intuition discriminate.
    + intros k a [E|[E|[]]]; injection E as <- <-; reflexivity.
  - reflexivity.
  - reflexivity.
Defined.

(* ================================================================= *)
(** ** More on [selectBestAgent] and the task literal *)

(** X10.  [selectBestAgent] on an empty list throws the [TypeError] of
    [reduce] before any telemetry is sent or the clock read; on any other
    list, NaN scores or not, it returns one of the agents it was given
    and its single call is the "agent_selected" event naming that agent. *)
Theorem selectBestAgent_member svc available need w :
  match available with
  | [] => selectBestAgent svc available need w = (Throw TypeError_reduce, w)
  | _ :: _ =>
      exists best,
        In best available
        /\ selectBestAgent svc available need w
           = (Ok best,
              {| agents := agents w;
                 trace := trace w ++ [agent_selected best need
                                        (Date_now svc (ticks w))];
                 ticks := S (ticks w) |})
  end.
Proof.
  destruct available as [|a0 rest].
  - reflexivity.
  - exists (fold_left better rest a0). split.
    + apply fold_better_In.
    + apply selectBestAgent_run.
Qed.

Lemma best_dominates available best :
  Array_reduce better available = Ok best ->
  (forall a, In a available -> is_nan (score a) = false) ->
  forall a, In a available -> (score a <=? score best)%float = true.
Proof.
  intros R Hnan a I.
  destruct available as [|a0 rest]; [discriminate|].
  simpl in R. injection R as <-.
  destruct (fold_better_split rest [] a0 []) as (pre & post & E & P1 & P2).
  - exact Hnan.
  - intros x [].
  - intros x [].
  - simpl in E. rewrite E in I. apply in_app_or in I.
    destruct I as [I|[<-|I]].
    + apply ltb_leb. now apply P1.
    + apply leb_refl. apply Hnan. apply fold_better_In.
    + now apply P2.
Qed.

Lemma reduce_In available best :
  Array_reduce better available = Ok best -> In best available.
Proof.
  destruct available as [|a0 rest]; [discriminate|].
  simpl. intros R. injection R as <-. apply fold_better_In.
Qed.

(** X11.  The order in which the available agents are listed decides ties
    only: when no score is NaN, two listings of the same agents select
    agents of equal score. *)
Theorem selectBestAgent_order_decides_ties_only l1 l2 best1 best2 :
  (forall a, In a l1 <-> In a l2) ->
  (forall a, In a l1 -> is_nan (score a) = false) ->
  Array_reduce better l1 = Ok best1 ->
  Array_reduce better l2 = Ok best2 ->
  (score best1 =? score best2)%float = true.
Proof.
  intros P Hnan R1 R2.
  assert (Hnan2 : forall a, In a l2 -> is_nan (score a) = false).
  { intros a I. apply Hnan. now apply P. }
  apply leb_antisym_eqb.
  - apply (best_dominates l2 best2 R2 Hnan2). apply P.
    now apply reduce_In.
  - apply (best_dominates l1 best1 R1 Hnan). apply P.
    now apply reduce_In.
Qed.

Lemma selectBestAgent_order_decides_ties_only_witness :
  (score Sample.bob =? score Sample.frank)%float = true.
Proof.
  apply (selectBestAgent_order_decides_ties_only
           [Sample.bob; Sample.dave; Sample.frank]
           [Sample.frank; Sample.bob; Sample.dave]
           Sample.bob Sample.frank).
  - intros a. simpl. tauto.
  - intros a [<-|[<-|[<-|[]]]]; reflexivity.
  - reflexivity.
  - reflexivity.
Defined.

(** X12.  The priority of the task grows with the urgency of the need: a
    need at least as urgent as another never gets a lower priority. *)
Theorem needTask_priority_monotone (n1 n2 : CitizenNeed) :
  (need_urgency n1 <=? need_urgency n2)%float = true ->
  Priority_rank (task_priority (needTask n1))
  <= Priority_rank (task_priority (needTask n2)).
Proof.
  intros L. unfold needTask. simpl.
  destruct (0.7 <? need_urgency n1)%float eqn:H7.
  - rewrite (ltb_leb_trans _ _ _ H7 L). simpl. lia.
  - destruct (0.3 <? need_urgency n1)%float eqn:H3.
    + rewrite (ltb_leb_trans _ _ _ H3 L).
      destruct (0.7 <? need_urgency n2)%float; simpl; lia.
    + simpl. lia.
Qed.

Lemma needTask_priority_monotone_witness :
  Priority_rank (task_priority (needTask Sample.pothole))
  <= Priority_rank (task_priority
                      (needTask {| need_type := "water";
                                   need_description := "burst main";
                                   need_urgency := 0.9 |})).
Proof.
  apply (needTask_priority_monotone Sample.pothole
           {| need_type := "water"; need_description := "burst main";
              need_urgency := 0.9 |}).
  reflexivity.
Defined.

(* ================================================================= *)
(** ** More on enrollment *)

Section EnrollmentRuns.

Variable svc : Services.

Lemma registerAgent_run agent w :
  registerAgent svc agent w =
  match createEmbedding svc (embeddingText agent) with
  | Throw e =>
      (Throw e,
       {| agents := agents w;
          trace := trace w
                   ++ [CreateEmbedding (embeddingText agent);
                       ConsoleError ("Failed to register agent "
                                     ++ name agent ++ ":") e];
          ticks := ticks w |})
  | Ok embedding =>
      let record := vectorRecord svc agent embedding (Date_now svc (ticks w)) in
      match vectorStore_upsert svc record with
      | Throw e =>
          (Throw e,
           {| agents := agents w;
              trace := trace w
                       ++ [CreateEmbedding (embeddingText agent);
                           Upsert record;
                           ConsoleError ("Failed to register agent "
                                         ++ name agent ++ ":") e];
              ticks := S (ticks w) |})
      | Ok _ =>
          (Ok tt,
           {| agents := agents w;
              trace := trace w
                       ++ [CreateEmbedding (embeddingText agent);
                           Upsert record;
                           enrolled agent;
                           ConsoleLog ("✅ Registered department agent: "
                                       ++ name agent ++ " in "
                                       ++ department_or_general agent
                                       ++ " department")];
              ticks := S (ticks w) |})
      end
  end.
Proof.
  unfold registerAgent. run.
  destruct (createEmbedding svc (embeddingText agent)) as [embedding|e]; simpl.
  - fold (vectorRecord svc agent embedding (Date_now svc (ticks w))).
    destruct (vectorStore_upsert svc _) as [[]|e]; simpl;
      rewrite <- !app_assoc; reflexivity.
  - rewrite <- !app_assoc. reflexivity.
Qed.

End EnrollmentRuns.

(** X13.  When the embedding provider and the vector index both answer,
    [registerAgent] returns normally after exactly four calls, in this
    order: the embedding request for "role personality interests", the
    upsert of the record keyed ["agent-" + id] that carries the embedding
    received, the "agent_registered" telemetry event and the console
    line; the registry is as it was and the clock was read once. *)
Theorem registerAgent_success svc agent w embedding :
  createEmbedding svc (embeddingText agent) = Ok embedding ->
  vectorStore_upsert svc
    (vectorRecord svc agent embedding (Date_now svc (ticks w))) = Ok tt ->
  registerAgent svc agent w =
  (Ok tt,
   {| agents := agents w;
      trace := trace w
               ++ [CreateEmbedding (role agent ++ " " ++ personality agent ++ " "
                                    ++ String.concat " " (interests agent));
                   Upsert (vectorRecord svc agent embedding
                             (Date_now svc (ticks w)));
                   TrackEvent "agent_registered"
                     (VObj [("agentId", VStr (agent_id agent));
                            ("role", VStr (role agent));
                            ("department", VStr (department_or_general agent))]);
                   ConsoleLog ("✅ Registered department agent: "
                               ++ name agent ++ " in "
                               ++ department_or_general agent ++ " department")];
      ticks := S (ticks w) |}).
Proof.
  intros E U. rewrite registerAgent_run, E. cbv zeta. now rewrite U.
Qed.

Lemma registerAgent_success_witness :
  registerAgent Sample.services Sample.ann Sample.world =
  (Ok tt,
   {| agents := agents Sample.world;
      trace := [CreateEmbedding "clerk calm parks transit";
                Upsert (vectorRecord Sample.services Sample.ann [0.25; 0.5]%float
                          1700000000000%float);
                TrackEvent "agent_registered"
                  (VObj [("agentId", VStr "7");
                         ("role", VStr "clerk");
                         ("department", VStr "general")]);
                ConsoleLog "✅ Registered department agent: Ann in general department"];
      ticks := 1 |}).
Proof.
  apply (registerAgent_success Sample.services Sample.ann Sample.world
           [0.25; 0.5]%float).
  - reflexivity.
  - reflexivity.
Defined.

(** X14.  When the embedding arrives but the vector index rejects the
    upsert, [registerAgent] logs the failure on the console and re-throws
    the index's error unchanged; the upsert was attempted once, no
    "agent_registered" telemetry and no success line follow it, and the
    registry is as it was. *)
Theorem registerAgent_upsert_failure svc agent w embedding e :
  createEmbedding svc (embeddingText agent) = Ok embedding ->
  vectorStore_upsert svc
    (vectorRecord svc agent embedding (Date_now svc (ticks w))) = Throw e ->
  exists calls,
    registerAgent svc agent w =
    (Throw e,
     {| agents := agents w; trace := trace w ++ calls; ticks := S (ticks w) |})
    /\ calls = [CreateEmbedding (embeddingText agent);
                Upsert (vectorRecord svc agent embedding (Date_now svc (ticks w)));
                ConsoleError ("Failed to register agent " ++ name agent ++ ":") e]
    /\ (forall event payload, ~ In (TrackEvent event payload) calls)
    /\ (forall line, ~ In (ConsoleLog line) calls).
Proof.
  intros E U. eexists. split; [|split; [reflexivity|]].
  - rewrite registerAgent_run, E. cbv zeta. now rewrite U.
  - split; intros; intros [K|[K|[K|[]]]]; discriminate.
Qed.

Lemma registerAgent_upsert_failure_witness :
  exists calls,
    registerAgent Faulty.index_down Sample.ann Sample.world =
    (Throw Faulty.index_error,
     {| agents := agents Sample.world;
        trace := trace Sample.world ++ calls;
        ticks := S (ticks Sample.world) |})
    /\ calls = [CreateEmbedding (embeddingText Sample.ann);
                Upsert (vectorRecord Faulty.index_down Sample.ann
                          [0.25; 0.5]%float
                          (Date_now Faulty.index_down (ticks Sample.world)));
                ConsoleError ("Failed to register agent " ++ name Sample.ann ++ ":")
                  Faulty.index_error]
    /\ (forall event payload, ~ In (TrackEvent event payload) calls)
    /\ (forall line, ~ In (ConsoleLog line) calls).
Proof.
  apply (registerAgent_upsert_failure Faulty.index_down Sample.ann Sample.world
           [0.25; 0.5]%float Faulty.index_error).
  - reflexivity.
  - reflexivity.
Defined.

(** X15.  Enrollment never touches the registry, whether it succeeds or
    fails, so an enrolled agent is not thereby assignable: the available
    agents are the same before and after.  And it fails only with an
    error of the embedding provider or of the vector index, handed on
    unchanged. *)
Theorem registerAgent_leaves_registry svc agent w :
  let r := registerAgent svc agent w in
  agents (snd r) = agents w
  /\ availableAgents (agents (snd r)) = availableAgents (agents w)
  /\ forall e,
       fst r = Throw e ->
       createEmbedding svc (embeddingText agent) = Throw e
       \/ exists embedding,
            createEmbedding svc (embeddingText agent) = Ok embedding
            /\ vectorStore_upsert svc
                 (vectorRecord svc agent embedding (Date_now svc (ticks w)))
               = Throw e.
Proof.
  intros r. subst r. rewrite registerAgent_run.
  destruct (createEmbedding svc (embeddingText agent)) as [embedding|e0].
  - cbv zeta.
    destruct (vectorStore_upsert svc _) as [[]|e0] eqn:U; simpl.
    + repeat split. discriminate.
    + repeat split. intros e T. injection T as <-. right. eauto.
  - simpl. repeat split. intros e T. injection T as <-. now left.
Qed.

(** X16.  The department written to the vector index and to telemetry is
    never empty: it is the agent's department when that is a non-empty
    string, and ["general"] when the department is missing or empty. *)
Theorem department_or_general_default agent :
  department_or_general agent <> EmptyString
  /\ (forall d, department agent = Some d -> d <> EmptyString ->
        department_or_general agent = d)
  /\ (department agent = None \/ department agent = Some EmptyString ->
        department_or_general agent = "general").
Proof.
  unfold department_or_general.
  destruct (department agent) as [d|].
  - destruct (String.eqb_spec d EmptyString) as [->|N].
    + repeat split; try discriminate. intros d [=<-] N. contradiction.
    + repeat split; [assumption | congruence |].
      intros [K|K]; [discriminate | congruence].
  - repeat split; try discriminate.
Qed.

(* ================================================================= *)
(** ** [getAgentTasks] *)

(** X17.  [getAgentTasks] never changes the world and sends nothing.  When
    the department service rejects, it rejects with the same error.  When
    the department service answers with a list of agents, it reports, in
    the order of that list, exactly the agents that hold a task, each
    with its identifier and that task: no reported task is null, and an
    agent available for assignment is never reported. *)
Theorem getAgentTasks_reports_busy getDepartmentAgents departmentId w :
  match getDepartmentAgents departmentId with
  | Throw e => getAgentTasks getDepartmentAgents departmentId w = (Throw e, w)
  | Ok l =>
      exists updates,
        getAgentTasks getDepartmentAgents departmentId w = (Ok updates, w)
        /\ (forall u, In u updates <->
              exists a t, In a l /\ currentTask a = Some t
                          /\ u = {| agentId := id a; task := Some t |})
        /\ map agentId updates = map id (filter hasTask l)
        /\ (forall u, In u updates -> task u <> None)
        /\ (forall a, In a l -> eligible a = true ->
              ~ In {| agentId := id a; task := currentTask a |} updates)
  end.
Proof.
  unfold getAgentTasks, bind, lift, ret.
  destruct (getDepartmentAgents departmentId) as [l|e]; [|reflexivity].
  eexists. split; [reflexivity|].
  assert (C : forall u,
             In u (map (fun agent => {| agentId := id agent;
                                        task := currentTask agent |})
                       (filter hasTask l)) <->
             exists a t, In a l /\ currentTask a = Some t
                         /\ u = {| agentId := id a; task := Some t |}).
  { intros u. rewrite in_map_iff. split.
    - intros (a & <- & I). apply filter_In in I. destruct I as [I H].
      unfold hasTask in H. destruct (currentTask a) as [t|] eqn:T;
        [|discriminate].
      exists a, t. rewrite T. auto.
    - intros (a & t & I & T & ->). exists a. rewrite T. split; [reflexivity|].
      apply filter_In. split; [assumption|]. unfold hasTask. now rewrite T. }
  split; [exact C|]. split; [|split].
  - rewrite map_map. reflexivity.
  - intros u I. apply C in I. destruct I as (a & t & _ & _ & ->). discriminate.
  - intros a I E K. apply C in K. destruct K as (a' & t & _ & _ & K).
    unfold eligible in E. apply andb_true_iff in E. destruct E as [_ E].
    destruct (currentTask a); discriminate.
Qed.

(** The roster of the sample: of Bob (idle), Carol (on patrol) and Dave
    (off duty), Carol alone is reported; an unknown department is the
    department service's error. *)
Example getAgentTasks_sample :
  getAgentTasks Faulty.roster "works" Sample.world
  = (Ok [{| agentId := "carol"; task := Some Sample.patrol |}], Sample.world)
  /\ getAgentTasks Faulty.roster "parks" Sample.world
     = (Throw {| err_name := "Error"; err_message := "unknown department" |},
        Sample.world).
Proof. split; reflexivity. Qed.

(** X18.  An assignment shows up in the task listing: on a well-formed
    registry with an available agent, if after [handleCitizenNeed] the
    department service answers with the registry's agents, then
    [getAgentTasks] reports the selected agent with the task built from
    the need. *)
Theorem getAgentTasks_after_assignment svc getDepartmentAgents departmentId
    need w best :
  wf_registry (agents w) ->
  Array_reduce better (availableAgents (agents w)) = Ok best ->
  let w' := snd (handleCitizenNeed svc need w) in
  getDepartmentAgents departmentId = Ok (Map_values (agents w')) ->
  exists updates,
    getAgentTasks getDepartmentAgents departmentId w' = (Ok updates, w')
    /\ In {| agentId := id best; task := Some (needTask need) |} updates.
Proof.
  intros W R w' G. unfold getAgentTasks, bind, lift, ret. rewrite G.
  eexists. split; [reflexivity|].
  apply in_map_iff. exists (with_task best (needTask need)).
  split; [reflexivity|]. apply filter_In. split; [|reflexivity].
  subst w'. rewrite (handleCitizenNeed_assigns svc need w best W R). simpl.
  unfold Map_values. apply in_map_iff.
  exists (id best, with_task best (needTask need)). split; [reflexivity|].
  apply Map_get_In. apply Map_get_set_same.
Qed.

Lemma getAgentTasks_after_assignment_witness :
  let w' := snd (handleCitizenNeed Sample.services Sample.pothole Sample.world) in
  exists updates,
    getAgentTasks (fun _ => Ok (Map_values (agents w'))) "works" w'
    = (Ok updates, w')
    /\ In {| agentId := "alice"; task := Some (needTask Sample.pothole) |}
          updates.
Proof.
  apply (getAgentTasks_after_assignment Sample.services
           (fun _ => Ok (Map_values
                           (agents (snd (handleCitizenNeed Sample.services
                                           Sample.pothole Sample.world)))))
           "works" Sample.pothole Sample.world Sample.alice).
  - exact wf_registry_sample.
  - reflexivity.
  - reflexivity.
Defined.

(* ================================================================= *)
(** ** The registry only grows *)

Lemma handleCitizenNeed_keys svc need w :
  Map_keys (agents (snd (handleCitizenNeed svc need w))) = Map_keys (agents w).
Proof.
  destruct (availableAgents (agents w)) as [|a0 rest] eqn:A.
  - now rewrite handleCitizenNeed_none.
  - rewrite (handleCitizenNeed_available svc need w (fold_left better rest a0))
      by (rewrite A; reflexivity).
    cbv zeta. simpl snd.
    destruct (Map_get (agents w) (id (fold_left better rest a0))) eqn:G;
      [|reflexivity].
    simpl. apply Map_keys_set. unfold Map_has. now rewrite G.
Qed.

(** X19.  No request ever removes or reorders an agent of the registry,
    whatever state the registry is in: after any request the identifiers
    registered before are all still registered, in the same order, and
    the only identifier that can have joined them, at the end, is that of
    an ["agentAssigned"] event.  Citizen needs, health updates and
    enrollments leave the list of identifiers as it was. *)
Theorem serve_keeps_keys svc r w :
  Map_keys (agents (snd (serve svc r w)))
  = match r with
    | AgentAssigned _ agent =>
        if Map_has (agents w) (id agent)
        then Map_keys (agents w)
        else (Map_keys (agents w) ++ [id agent])%list
    | _ => Map_keys (agents w)
    end.
Proof.
  destruct r as [d a|d l|need|a]; unfold serve.
  - rewrite on_agentAssigned_run. simpl.
    destruct (Map_has (agents w) (id a)) eqn:H.
    + now apply Map_keys_set.
    + now apply Map_keys_set_new.
  - rewrite on_agentsHealthUpdated_run. simpl. apply healthUpdate_keys.
  - apply handleCitizenNeed_keys.
  - now rewrite registerAgent_agents.
Qed.
